(** * Text-to-SQL: the response sanitizer and the generate/execute/diagnose/fix loop

    A shallow embedding of [src/text2sql_system.py]:
    - [PyStr]: the Python [str] methods the sanitizer calls
      ([split], [replace], [strip], [in], [join]);
    - [clean_llm_response]: the sanitizer;
    - [Text2SQLSystem]: [query] and [get_last_successful_result], run
      against an environment that stands for the three agents and the
      database connector. *)

From Equations Require Import Equations.
From Stdlib Require Import Ascii String.
From Stdlib Require Import List Arith NArith ZArith Bool Lia.
From Stdlib Require DecimalString.
Import ListNotations.

(** Beyond the sanitizer and the loop, the development embeds what
    surrounds them:
    - [Connector]: [create_connection_string], [connect], [disconnect]
      and [execute_query] of [src/database_connectors.py];
    - [Frontend]: [__init__], [forward] and [display_results] of
      [Text2SQLSystem], and [process_user_query] of [src/web_ui.py]. *)

(** ** Python text *)

(** A Python [str] is a sequence of Unicode code points. *)
Definition char := N.
Definition text := list char.

(** A literal of the source, read as code points (ASCII literals only). *)
Definition py (s : string) : text := map N_of_ascii (list_ascii_of_string s).

Module PyStr.

(** [str.isspace] on one code point: the set [str.split()] and
    [str.strip()] use when called without an argument. *)
Definition is_space (c : char) : bool :=
  ((9 <=? c) && (c <=? 13) || (28 <=? c) && (c <=? 32)
   || (c =? 133) || (c =? 160) || (c =? 5760)
   || (8192 <=? c) && (c <=? 8202)
   || (c =? 8232) || (c =? 8233) || (c =? 8239) || (c =? 8287)
   || (c =? 12288))%N.

(** [s.startswith(p)] *)
Fixpoint startswith (p s : text) : bool :=
  match p, s with
  | [], _ => true
  | _ :: _, [] => false
  | x :: p', y :: s' => (x =? y)%N && startswith p' s'
  end.

(** [s.find(p)]: the lowest index at which [p] occurs in [s]; [None]
    stands for Python's -1. *)
Fixpoint find (p s : text) : option nat :=
  if startswith p s then Some 0
  else match s with
       | [] => None
       | _ :: s' => option_map S (find p s')
       end.

(** [p in s] *)
Definition contains (p s : text) : bool :=
  match find p s with Some _ => true | None => false end.

(** [s.split(sep)] for a separator that is not empty (Python raises
    ValueError on an empty one; every call of the source passes a
    literal): cut at the leftmost occurrence, go on after it. *)
Equations? split (sep s : text) : list text by wf (length s) lt :=
  split sep [] := [[]];
  split sep (c :: s') with find sep (c :: s') => {
    | None := [c :: s'];
    | Some i := firstn i (c :: s') :: split sep (skipn (i + length sep - 1) s') }.
Proof. rewrite length_skipn. simpl. lia. Qed.

(** [s.replace(old, new, count)] for [old] not empty; [count = None] is
    the call without a count (replace every occurrence). *)
Definition spend (count : option nat) : option (option nat) :=
  match count with
  | None => Some None
  | Some 0 => None
  | Some (S k) => Some (Some k)
  end.

Equations? replace (old new : text) (count : option nat) (s : text) : text
  by wf (length s) lt :=
  replace old new count [] := [];
  replace old new count (c :: s') with spend count => {
    | None := c :: s';
    | Some count' with find old (c :: s') => {
      | None := c :: s';
      | Some i := firstn i (c :: s') ++ new
                    ++ replace old new count' (skipn (i + length old - 1) s') } }.
Proof. rewrite length_skipn. simpl. lia. Qed.

(** [s.lstrip()], [s.rstrip()], [s.strip()] *)
Fixpoint lstrip (s : text) : text :=
  match s with
  | [] => []
  | c :: s' => if is_space c then lstrip s' else s
  end.

Fixpoint rstrip (s : text) : text :=
  match s with
  | [] => []
  | c :: s' =>
      match rstrip s' with
      | [] => if is_space c then [] else [c]
      | r => c :: r
      end
  end.

Definition strip (s : text) : text := rstrip (lstrip s).

(** The pieces of [s] between whitespace characters, empty ones
    included. *)
Fixpoint fields (s : text) : list text :=
  match s with
  | [] => [[]]
  | c :: s' =>
      if is_space c then [] :: fields s'
      else match fields s' with
           | [] => [[c]]
           | w :: ws => (c :: w) :: ws
           end
  end.

Definition nonempty (w : text) : bool :=
  match w with [] => false | _ :: _ => true end.

(** [s.split()]: the words of [s]; runs of whitespace separate, no word
    is empty. *)
Definition split_ws (s : text) : list text := filter nonempty (fields s).

(** [sep.join(l)] *)
Fixpoint join (sep : text) (l : list text) : text :=
  match l with
  | [] => []
  | [w] => w
  | w :: l' => w ++ sep ++ join sep l'
  end.

(** [p] occurs in [s], as a proposition; [contains] decides it. *)
Definition occurs (p s : text) : Prop := exists a b, s = a ++ p ++ b.

(** No character of [w] is whitespace. *)
Definition ws_free (w : text) : Prop := forall c, In c w -> is_space c = false.

Definition ws_freeb (w : text) : bool := forallb (fun c => negb (is_space c)) w.

End PyStr.

(** ** The sanitizer *)

Definition completion_markers : list text :=
  [py "### Completed:"; py "### End"; py "# Completed"; py "Completed:";
   py "###"; py "#"].

(** [splits[0]] of [sql_content.split(marker)], stripped, when the
    marker occurs. *)
Definition cut_marker (sql_content marker : text) : text :=
  if PyStr.contains marker sql_content
  then PyStr.strip (hd [] (PyStr.split marker sql_content))
  else sql_content.

(** "Remove newlines and extra spaces": [' '.join(s.split())] *)
Definition collapse (s : text) : text := PyStr.join (py " ") (PyStr.split_ws s).

(** The four stanzas of [clean_llm_response], by their comments in the
    source. *)

(** "Remove markdown code blocks" *)
Definition remove_code_blocks (t : text) : text :=
  let splits := PyStr.split (py "```") t in
  if 3 <=? length splits
  then PyStr.strip (PyStr.replace (py "sql") [] None (nth 1 splits []))
  else PyStr.strip t.

(** "Clean up common LLM artifacts": [sql_content.replace('sql', '', 1)],
    commented "Remove leading 'sql'". *)
Definition remove_leading_sql (sql_content : text) : text :=
  PyStr.replace (py "sql") [] (Some 1) sql_content.

(** "Remove common completion artifacts" *)
Definition remove_completion_artifacts (sql_content : text) : text :=
  fold_left cut_marker completion_markers sql_content.

Definition clean_llm_response (t : text) : text :=
  let sql_content := remove_code_blocks t in
  let sql_content := remove_leading_sql sql_content in
  let sql_content := remove_completion_artifacts sql_content in
  collapse sql_content.

(** The wording of the specification for the first step: the content
    between the first pair of fences, when the text has two fences. *)
Definition fenced_block (raw : text) : option text :=
  match PyStr.find (py "```") raw with
  | None => None
  | Some i =>
      let rest := skipn (i + 3) raw in
      match PyStr.find (py "```") rest with
      | None => None
      | Some j => Some (firstn j rest)
      end
  end.

(** ** The orchestration loop *)

Module Text2SQLSystem.

(** *** Data *)

(** A [dspy] prediction of the SQL agent or of the fix agent: both
    signatures declare the output field [generated_sql]. *)
Record Response := { generated_sql : text }.

Inductive Cell :=
| CNull
| CInt (z : Z)
| CText (t : text).

(** A [pandas.DataFrame]: the column labels and the rows. *)
Record DataFrame := { columns : list text; rows : list (list Cell) }.

Definition is_nil {A} (l : list A) : bool :=
  match l with [] => true | _ :: _ => false end.

(** [df.empty]: one of the two axes has length 0. *)
Definition empty (d : DataFrame) : bool := is_nil (columns d) || is_nil (rows d).

(** [str(e)] of a caught exception. *)
Definition Exception := text.

(** What the connector does with one statement: [execute_query] (or
    [execute(sql).df()] of a DuckDB engine) returns a frame or raises. *)
Inductive ExecResult :=
| Raised (e : Exception)
| Returned (d : DataFrame).

(** The dict [information] of [query]; the reasoning agent receives its
    [str] rendering, which this model passes on as the dict itself. *)
Record Information := { user_query : text; relevant_context : text }.

(** The database connector.  The agents and the database live outside
    the program and need not answer the same way twice: each capability
    takes the index (from 0) of the loop iteration that calls it. *)
Record DatabaseConnector := {
  execute_query : nat -> text -> ExecResult }.

(** The attributes of [self] that [query] uses.  An agent that raises
    answers [None]; that covers a prediction without the expected
    output field, which raises inside the same [try]. *)
Record System := {
  max_retry : Z;
  sql_agent : text -> text -> option Response;
  error_reasoning_agent : nat -> text -> text -> Information -> option text;
  error_fix_agent : nat -> text -> option Response }.

(** [return_dict], by key. *)
Record ReturnDict := {
  response : list Response;
  sql : list text;
  error_reason : list text;
  df : list DataFrame }.

Definition empty_dict : ReturnDict :=
  {| response := []; sql := []; error_reason := []; df := [] |}.

(** The capability calls of a run, in order (not a value of the source:
    the record of its effects). *)
Inductive Call :=
| CallSqlAgent (q info : text)
| CallExecute (stmt : text)
| CallErrorReasoning (error_message incorrect_sql : text)
| CallErrorFix (instruction : text).

(** The three places where the source leaves the loop by
    [retry_count = self.max_retry + 1]: after a result that is not
    empty, after the agent said the question is not about SQL, after an
    agent raised while reasoning or fixing. *)
Inductive Exit := ExitSuccess | ExitNotSql | ExitReasoningError.

(** The local variables of [query] inside the loop, with the call record
    and the exit taken (if any). *)
Record Locals := {
  return_dict : ReturnDict;
  cur_response : Response;
  retry_count : Z;
  calls : list Call;
  exit_site : option Exit }.

(** *** Statements that may raise *)

Definition M (A : Type) : Type := Locals -> (A + Exception) * Locals.

Definition ret {A} (a : A) : M A := fun st => (inl a, st).

Definition bind {A B} (m : M A) (k : A -> M B) : M B :=
  fun st =>
    match m st with
    | (inl a, st') => k a st'
    | (inr e, st') => (inr e, st')
    end.

Definition raise {A} (e : Exception) : M A := fun st => (inr e, st).

Definition modify (f : Locals -> Locals) : M unit := fun st => (inl tt, f st).

Notation "x <- m ;; k" := (bind m (fun x => k))
  (at level 61, m at next level, right associativity).
Notation "m ;; k" := (bind m (fun _ => k))
  (at level 61, right associativity).

(** [try: body except Exception as e: handler e], for a handler that
    does not raise: what was done before the exception stays done. *)
Definition try_except (body : M unit) (handler : Exception -> Locals -> Locals)
  : Locals -> Locals :=
  fun st =>
    match body st with
    | (inl _, st') => st'
    | (inr e, st') => handler e st'
    end.

Definition set_return_dict (f : ReturnDict -> ReturnDict) (st : Locals) : Locals :=
  {| return_dict := f (return_dict st); cur_response := cur_response st;
     retry_count := retry_count st; calls := calls st;
     exit_site := exit_site st |}.

Definition set_response (r : Response) (st : Locals) : Locals :=
  {| return_dict := return_dict st; cur_response := r;
     retry_count := retry_count st; calls := calls st;
     exit_site := exit_site st |}.

Definition set_retry_count (n : Z) (st : Locals) : Locals :=
  {| return_dict := return_dict st; cur_response := cur_response st;
     retry_count := n; calls := calls st; exit_site := exit_site st |}.

Definition record_call (c : Call) (st : Locals) : Locals :=
  {| return_dict := return_dict st; cur_response := cur_response st;
     retry_count := retry_count st; calls := calls st ++ [c];
     exit_site := exit_site st |}.

Definition record_exit (x : Exit) (st : Locals) : Locals :=
  {| return_dict := return_dict st; cur_response := cur_response st;
     retry_count := retry_count st; calls := calls st;
     exit_site := Some x |}.

Definition append_response (r : Response) (d : ReturnDict) : ReturnDict :=
  {| response := response d ++ [r]; sql := sql d;
     error_reason := error_reason d; df := df d |}.

Definition append_sql (s : text) (d : ReturnDict) : ReturnDict :=
  {| response := response d; sql := sql d ++ [s];
     error_reason := error_reason d; df := df d |}.

Definition append_error_reason (t : text) (d : ReturnDict) : ReturnDict :=
  {| response := response d; sql := sql d;
     error_reason := error_reason d ++ [t]; df := df d |}.

Definition append_df (x : DataFrame) (d : ReturnDict) : ReturnDict :=
  {| response := response d; sql := sql d;
     error_reason := error_reason d; df := df d ++ [x] |}.

(** A call of an agent: recorded, then its answer or its exception. *)
Definition call_agent {A} (c : Call) (answer : option A) : M A :=
  fun st =>
    match answer with
    | Some a => (inl a, record_call c st)
    | None => (inr (py "agent call failed"), record_call c st)
    end.

Definition call_execute (c : Call) (answer : ExecResult) : M DataFrame :=
  fun st =>
    match answer with
    | Returned d => (inl d, record_call c st)
    | Raised e => (inr e, record_call c st)
    end.

Definition NOT_ASKING_FOR_SQL : text := py "NOT ASKING FOR SQL".

Section Query.

Variable self : System.
Variable information : Information.
Variable db_connector : DatabaseConnector.

(** The body of the outer [try], in iteration [i]. *)
Definition try_execute (i : nat) (sql_i : text) : M unit :=
  modify (set_return_dict (append_sql sql_i)) ;;
  d <- call_execute (CallExecute sql_i) (execute_query db_connector i sql_i) ;;
  modify (set_return_dict (append_df d)) ;;
  if empty d then raise (py "Query returned empty result set")
  else modify (record_exit ExitSuccess) ;;
       modify (set_retry_count (max_retry self + 1)).

(** The body of the inner [try]. *)
Definition reason_and_fix (i : nat) (sql_i : text) (error_msg : text) : M unit :=
  let error_message := firstn 500 error_msg in
  error_fix_reasoning <-
    call_agent (CallErrorReasoning error_message sql_i)
      (error_reasoning_agent self i error_message sql_i information) ;;
  if negb (PyStr.contains NOT_ASKING_FOR_SQL error_fix_reasoning) then
    modify (set_return_dict (append_error_reason error_fix_reasoning)) ;;
    r <- call_agent (CallErrorFix error_fix_reasoning)
           (error_fix_agent self i error_fix_reasoning) ;;
    modify (set_response r) ;;
    modify (set_return_dict (append_response r))
  else
    modify (record_exit ExitNotSql) ;;
    modify (set_retry_count (max_retry self + 1)).

(** One pass through the body of the [while]. *)
Definition iteration (st : Locals) : Locals :=
  let i := length (sql (return_dict st)) in
  let sql_i := clean_llm_response (generated_sql (cur_response st)) in
  let st :=
    try_except (try_execute i sql_i)
      (fun e =>
         try_except (reason_and_fix i sql_i e)
           (fun _ st => set_retry_count (max_retry self + 1)
                          (record_exit ExitReasoningError st)))
      st in
  set_retry_count (retry_count st + 1) st.

(** [while retry_count < self.max_retry: ...]; [None] when the fuel
    runs out before the condition fails. *)
Fixpoint while_loop (fuel : nat) (st : Locals) : option Locals :=
  if (retry_count st <? max_retry self)%Z then
    match fuel with
    | O => None
    | S fuel' => while_loop fuel' (iteration st)
    end
  else Some st.

End Query.

(** The four ways a run ends.  Leaving the loop because the condition
    fails with no exit taken, or because an agent raised while reasoning
    or fixing, is the failure of the run. *)
Inductive Terminal :=
| Terminated_Success
| Terminated_Failure
| Terminated_OutOfScope
| Terminated_GenerationError.

Definition terminal_of (x : option Exit) : Terminal :=
  match x with
  | Some ExitSuccess => Terminated_Success
  | Some ExitNotSql => Terminated_OutOfScope
  | Some ExitReasoningError => Terminated_Failure
  | None => Terminated_Failure
  end.

(** What a run leaves: the dict it returns, with the calls it made and
    the way it ended. *)
Record Run := {
  trace : ReturnDict;
  made : list Call;
  terminal : Terminal }.

Definition initial (r : Response) (q info : text) : Locals :=
  {| return_dict := append_response r empty_dict;
     cur_response := r;
     retry_count := 0;
     calls := [CallSqlAgent q info];
     exit_site := None |}.

Definition finish (st : Locals) : Run :=
  {| trace := return_dict st;
     made := calls st;
     terminal := terminal_of (exit_site st) |}.

(** [Text2SQLSystem.query]. The loop gets [max_retry] units of fuel;
    [query_returns] shows that is enough. *)
Definition query (self : System) (q database_info : text)
    (db_connector : DatabaseConnector) : option Run :=
  match sql_agent self q database_info with
  | None =>
      Some {| trace := empty_dict;
              made := [CallSqlAgent q database_info];
              terminal := Terminated_GenerationError |}
  | Some r =>
      let information :=
        {| user_query := q; relevant_context := database_info |} in
      option_map finish
        (while_loop self information db_connector
           (Z.to_nat (max_retry self)) (initial r q database_info))
  end.

(** [Text2SQLSystem.get_last_successful_result]; a pair of [None] is
    Python's [(None, None)]. *)
Definition get_last_successful_result (result_dict : ReturnDict)
  : option text * option DataFrame :=
  if negb (is_nil (sql result_dict)) && negb (is_nil (df result_dict))
  then (Some (last (sql result_dict) []),
        Some (last (df result_dict) {| columns := []; rows := [] |}))
  else (None, None).

(** *** Vocabulary of the properties *)

(** The statement and the iteration index of the attempt a loop state
    is about to make. *)
Definition attempt_sql (st : Locals) : text :=
  clean_llm_response (generated_sql (cur_response st)).

Definition attempt_index (st : Locals) : nat := length (sql (return_dict st)).

(** The message the [except] clause of the loop receives, if the
    execution is a failure: the connector's, or the one the source
    raises on an empty frame. *)
Definition failure_message (r : ExecResult) : option text :=
  match r with
  | Raised e => Some e
  | Returned d =>
      if empty d then Some (py "Query returned empty result set") else None
  end.

Definition fails (r : ExecResult) : bool :=
  match failure_message r with Some _ => true | None => false end.

(** The attempts of a trace that succeeded: the frames that are not
    empty. *)
Definition successes (d : ReturnDict) : nat :=
  length (filter (fun x => negb (empty x)) (df d)).

(** The frames the connector returns for the statements [stmts], run as
    iterations [i], [i + 1], ...: none where it raises. *)
Fixpoint returned_frames (db : DatabaseConnector) (i : nat) (stmts : list text)
  : list DataFrame :=
  match stmts with
  | [] => []
  | s :: rest =>
      match execute_query db i s with
      | Returned d => d :: returned_frames db (S i) rest
      | Raised _ => returned_frames db (S i) rest
      end
  end.

(** The dict after an execution that returned [d]. *)
Definition set_df_sql (st : Locals) (d : DataFrame) : ReturnDict :=
  append_df d (append_sql (attempt_sql st) (return_dict st)).

Definition is_reasoning_call (c : Call) : bool :=
  match c with CallErrorReasoning _ _ => true | _ => false end.

Definition is_fix_call (c : Call) : bool :=
  match c with CallErrorFix _ => true | _ => false end.

(** The exhaustion scenario: the first SQL is generated, every
    execution fails, the reasoning agent always answers without the
    sentinel, the fix agent always answers. *)
Record exhaustion_scenario (self : System) (db : DatabaseConnector)
    (q database_info : text) : Prop := {
  generation_succeeds : sql_agent self q database_info <> None;
  every_execution_fails : forall i s, fails (execute_query db i s) = true;
  reasoning_answers : forall i m s inf,
    exists t, error_reasoning_agent self i m s inf = Some t
              /\ PyStr.contains NOT_ASKING_FOR_SQL t = false;
  fix_answers : forall i t, error_fix_agent self i t <> None }.

(** *** Sample systems and connectors *)

Definition question : text := py "How many users signed up last week?".
Definition schema : text := py "users(id, name, signup_date)".

(** Agents that always answer, with a table name no fix gets right. *)
Definition stubborn (budget : Z) : System :=
  {| max_retry := budget;
     sql_agent := fun _ _ =>
       Some {| generated_sql := py "```sql SELECT count(*) FROM usr```" |};
     error_reasoning_agent := fun _ _ _ _ =>
       Some (py "Table usr does not exist. Use the table users.");
     error_fix_agent := fun _ _ =>
       Some {| generated_sql := py "SELECT count(*) FROM usr" |} |}.

(** A reasoning agent that finds the question is not about the data. *)
Definition off_topic : System :=
  {| max_retry := 3;
     sql_agent := fun _ _ => Some {| generated_sql := py "SELECT 1 FROM nowhere" |};
     error_reasoning_agent := fun _ _ _ _ =>
       Some (py "SELECT 'NOT ASKING FOR SQL';");
     error_fix_agent := fun _ _ => Some {| generated_sql := py "SELECT 1" |} |}.

(** A system whose SQL agent cannot be reached. *)
Definition unreachable : System :=
  {| max_retry := 3;
     sql_agent := fun _ _ => None;
     error_reasoning_agent := fun _ _ _ _ => None;
     error_fix_agent := fun _ _ => None |}.

Definition db_raising : DatabaseConnector :=
  {| execute_query := fun _ _ => Raised (py "no such table: usr") |}.

Definition no_rows : DataFrame := {| columns := [py "count"]; rows := [] |}.

Definition one_row : DataFrame :=
  {| columns := [py "count"]; rows := [[CInt 7]] |}.

Definition db_no_rows : DatabaseConnector :=
  {| execute_query := fun _ _ => Returned no_rows |}.

Definition db_one_row : DatabaseConnector :=
  {| execute_query := fun _ _ => Returned one_row |}.

End Text2SQLSystem.

(** ** More vocabulary and samples for the loop *)

Module LoopVocabulary.
Import Text2SQLSystem.

Definition is_sql_agent_call (c : Call) : bool :=
  match c with CallSqlAgent _ _ => true | _ => false end.

Definition is_execute_call (c : Call) : bool :=
  match c with CallExecute _ => true | _ => false end.

Definition count_calls (f : Call -> bool) (l : list Call) : nat :=
  length (filter f l).

(** The statement [query] makes of a response. *)
Definition statement_of (r : Response) : text :=
  clean_llm_response (generated_sql r).

(** The error message of a reasoning call has at most 500 characters. *)
Definition message_bounded (c : Call) : Prop :=
  match c with
  | CallErrorReasoning m _ => (length m <= 500)%nat
  | _ => True
  end.

(** A system whose reasoning agent raises. *)
Definition silent_reasoner : System :=
  {| max_retry := 3;
     sql_agent := fun _ _ => Some {| generated_sql := py "SELECT 1 FROM nowhere" |};
     error_reasoning_agent := fun _ _ _ _ => None;
     error_fix_agent := fun _ _ => Some {| generated_sql := py "SELECT 1" |} |}.

(** A system whose fix agent raises. *)
Definition silent_fixer : System :=
  {| max_retry := 3;
     sql_agent := fun _ _ => Some {| generated_sql := py "SELECT 1 FROM nowhere" |};
     error_reasoning_agent := fun _ _ _ _ => Some (py "Use an existing table.");
     error_fix_agent := fun _ _ => None |}.

End LoopVocabulary.

(** ** The database connector ([src/database_connectors.py]) *)

Module Connector.
Import Text2SQLSystem.

Fixpoint text_eqb (a b : text) : bool :=
  match a, b with
  | [], [] => true
  | x :: a', y :: b' => (x =? y)%N && text_eqb a' b'
  | _, _ => false
  end.

(** [str(n)] of a Python [int], as an f-string renders it. *)
Definition str_of_int (n : Z) : text :=
  py (DecimalString.NilZero.string_of_int (Z.to_int n)).

(** What a call returns or raises. *)
Inductive Result (A : Type) :=
| Return (a : A)
| Throw (e : Exception).
Arguments Return {A} a.
Arguments Throw {A} e.

Record DbConfig := {
  driver : text;
  default_port : Z;
  ssl_options : list text }.

(** The class attribute [SUPPORTED_DATABASES], in the order of the
    source. *)
Definition SUPPORTED_DATABASES : list (text * DbConfig) :=
  [ (py "mysql",
     {| driver := py "mysql+mysqlconnector"; default_port := 3306;
        ssl_options := [py "preferred"; py "disabled"; py "required"] |});
    (py "postgresql",
     {| driver := py "postgresql+psycopg2"; default_port := 5432;
        ssl_options := [py "prefer"; py "disable"; py "require"] |});
    (py "mssql",
     {| driver := py "mssql+pyodbc"; default_port := 1433;
        ssl_options := [py "yes"; py "no"] |}) ].

(** [d[key]] on a dict written as its items; [None] when the key is
    missing. *)
Fixpoint lookup {A} (key : text) (d : list (text * A)) : option A :=
  match d with
  | [] => None
  | (k, v) :: d' => if text_eqb key k then Some v else lookup key d'
  end.

(** The default of the parameter [ssl] of [create_connection_string],
    [test_connection] and [connect]. *)
Definition default_ssl : text := py "preferred".

(** [DatabaseConnector.create_connection_string].  A [db_type] that is
    a key of [SUPPORTED_DATABASES] and none of the three names of the
    [if]/[elif] chain would leave [conn_str] unbound at the [return]. *)
Definition create_connection_string (db_type host : text) (port : Z)
    (username password database ssl : text) : Result text :=
  match lookup db_type SUPPORTED_DATABASES with
  | None => Throw (py "Unsupported database type: " ++ db_type)
  | Some db_config =>
      let base :=
        driver db_config ++ py "://" ++ username ++ py ":" ++ password
          ++ py "@" ++ host ++ py ":" ++ str_of_int port in
      let with_database :=
        if is_nil database then base else base ++ py "/" ++ database in
      if text_eqb db_type (py "mysql") then
        Return
          (if negb (text_eqb ssl (py "preferred"))
           then with_database ++ py "?ssl_disabled="
                  ++ (if text_eqb ssl (py "disabled") then py "true" else py "false")
           else with_database)
      else if text_eqb db_type (py "postgresql") then
        Return
          (if negb (text_eqb ssl (py "prefer"))
           then with_database ++ py "?sslmode=" ++ ssl
           else with_database)
      else if text_eqb db_type (py "mssql") then
        Return
          (with_database ++ py "?driver=ODBC+Driver+17+for+SQL+Server"
             ++ (if text_eqb ssl (py "yes")
                 then py "&Encrypt=yes&TrustServerCertificate=no"
                 else py "&Encrypt=no"))
      else
        Throw (py "local variable 'conn_str' referenced before assignment")
  end.

(** An engine of [sqlalchemy], known by the URL it was created from. *)
Definition Engine := text.

(** What [sqlalchemy] and the server behind it do: [create_engine]
    returns an engine or raises; a connection of the engine runs
    'SELECT 1' or raises; [pd.read_sql] over a connection returns a
    frame or raises (the index is the one of [DatabaseConnector]). *)
Record Sqlalchemy := {
  create_engine : text -> option Engine;
  select_one : Engine -> bool;
  read_sql : Engine -> nat -> text -> ExecResult }.

(** The dict [connection_info] once filled by [connect]: it has no
    password. *)
Record ConnectionInfo := {
  info_db_type : text;
  info_host : text;
  info_port : Z;
  info_username : text;
  info_database : text;
  info_ssl : text;
  connected_at : Z }.

(** The attributes of a [DatabaseConnector]; [connection_info = None]
    is the empty dict. *)
Record State := {
  engine : option Engine;
  connection_info : option ConnectionInfo;
  is_connected : bool;
  disposed : list Engine }.

(** [DatabaseConnector.__init__]; [disposed] records the engines on
    which [dispose] was called. *)
Definition init : State :=
  {| engine := None; connection_info := None; is_connected := false;
     disposed := [] |}.

(** [DatabaseConnector.connect], with the value of [datetime.now()];
    returns the new attributes and the boolean. *)
Definition connect (sa : Sqlalchemy) (now : Z) (self : State)
    (db_type host : text) (port : Z) (username password database ssl : text)
  : State * bool :=
  let failed (e : option Engine) :=
    ({| engine := e; connection_info := connection_info self;
        is_connected := false; disposed := disposed self |}, false) in
  match create_connection_string db_type host port username password database ssl with
  | Throw _ => failed (engine self)
  | Return conn_str =>
      match create_engine sa conn_str with
      | None => failed (engine self)
      | Some e =>
          if select_one sa e then
            ({| engine := Some e;
                connection_info :=
                  Some {| info_db_type := db_type; info_host := host;
                          info_port := port; info_username := username;
                          info_database := database; info_ssl := ssl;
                          connected_at := now |};
                is_connected := true;
                disposed := disposed self |}, true)
          else failed (Some e)
      end
  end.

(** [DatabaseConnector.disconnect] *)
Definition disconnect (self : State) : State :=
  {| engine := None;
     connection_info := None;
     is_connected := false;
     disposed := match engine self with
                 | Some e => disposed self ++ [e]
                 | None => disposed self
                 end |}.

Definition not_connected_message : text :=
  py "Not connected to database. Call connect() first.".

(** [DatabaseConnector.execute_query]; with [self.engine] being [None]
    the call of [connect] on it raises the AttributeError of Python,
    which the [except] clause logs and raises again. *)
Definition execute_query (sa : Sqlalchemy) (self : State) (i : nat) (query : text)
  : ExecResult :=
  if negb (is_connected self) then
    Raised not_connected_message
  else
    match engine self with
    | Some e => read_sql sa e i query
    | None => Raised (py "'NoneType' object has no attribute 'connect'")
    end.

(** The connector as [query] sees it: an object with [execute_query]. *)
Definition as_db_connector (sa : Sqlalchemy) (self : State) : DatabaseConnector :=
  {| Text2SQLSystem.execute_query := execute_query sa self |}.

(** The calls a user makes on a connector, each with what [sqlalchemy]
    does and what the clock shows at that time. *)
Inductive Op :=
| OpConnect (sa : Sqlalchemy) (now : Z) (db_type host : text) (port : Z)
    (username password database ssl : text)
| OpDisconnect.

Definition step (self : State) (op : Op) : State :=
  match op with
  | OpConnect sa now db_type host port username password database ssl =>
      fst (connect sa now self db_type host port username password database ssl)
  | OpDisconnect => disconnect self
  end.

Definition run (ops : list Op) : State := fold_left step ops init.

Definition is_disconnect (op : Op) : bool :=
  match op with OpDisconnect => true | _ => false end.

Definition supported (db_type : text) : Prop :=
  db_type = py "mysql" \/ db_type = py "postgresql" \/ db_type = py "mssql".

(** A server that accepts every connection and answers every query
    with one row. *)
Definition friendly : Sqlalchemy :=
  {| create_engine := fun url => Some url;
     select_one := fun _ => true;
     read_sql := fun _ _ _ => Returned one_row |}.

(** A server that refuses every connection. *)
Definition unfriendly : Sqlalchemy :=
  {| create_engine := fun url => Some url;
     select_one := fun _ => false;
     read_sql := fun _ _ _ => Raised (py "connection refused") |}.

End Connector.

(** ** Construction, display and the chat front end *)

Module Frontend.
Import Text2SQLSystem Connector.

(** The three agents of a system. *)
Record Agents := {
  agent_sql : text -> text -> option Response;
  agent_reasoning : nat -> text -> text -> Information -> option text;
  agent_fix : nat -> text -> option Response }.

(** What is outside [Text2SQLSystem.__init__]: the environment variable
    OPENAI_API_KEY, and [dspy], which builds the three language models
    from the key and the three model names and the agents on them, or
    raises. *)
Record Platform := {
  OPENAI_API_KEY : option text;
  dspy_agents : text -> text -> text -> text -> Result Agents }.

Definition api_key_required : text :=
  py "OpenAI API key is required. Either:" ++ [10%N]
    ++ py "1. Pass api_key parameter, or" ++ [10%N]
    ++ py "2. Set OPENAI_API_KEY environment variable".

(** The lines "Handle API key" of [__init__]: the environment is read
    only when [api_key is None]; [not api_key] holds of a variable
    that is unset or empty. *)
Definition handle_api_key (pf : Platform) (api_key : option text) : Result text :=
  match api_key with
  | Some k => Return k
  | None =>
      match OPENAI_API_KEY pf with
      | Some (c :: k) => Return (c :: k)
      | _ => Throw api_key_required
      end
  end.

(** [Text2SQLSystem.__init__] *)
Definition new_system (pf : Platform)
    (sql_model error_reasoning_model error_fix_model : text)
    (max_retry : Z) (api_key : option text) : Result System :=
  match handle_api_key pf api_key with
  | Throw e => Throw e
  | Return k =>
      match dspy_agents pf k (py "openai/" ++ sql_model)
              (py "openai/" ++ error_reasoning_model)
              (py "openai/" ++ error_fix_model) with
      | Throw e => Throw e
      | Return a =>
          Return {| Text2SQLSystem.max_retry := max_retry;
                    sql_agent := agent_sql a;
                    error_reasoning_agent := agent_reasoning a;
                    error_fix_agent := agent_fix a |}
      end
  end.

(** [create_text2sql_system] *)
Definition create_text2sql_system (pf : Platform)
    (sql_model error_reasoning_model error_fix_model : text)
    (max_retry : Z) (api_key : option text) : Result System :=
  new_system pf sql_model error_reasoning_model error_fix_model max_retry api_key.

(** [Text2SQLSystem.forward] *)
Definition forward (self : System) (q relevant_context : text)
    (db_connector : DatabaseConnector) : option Run :=
  query self q relevant_context db_connector.

(** [df.head(n)]: the first [n] rows, or all rows but the last [-n]
    for a negative [n]. *)
Definition head (n : Z) (d : DataFrame) : DataFrame :=
  {| columns := columns d;
     rows := if (0 <=? n)%Z then firstn (Z.to_nat n) (rows d)
             else firstn (length (rows d) - Z.to_nat (- n)) (rows d) |}.

(** [len(df)] *)
Definition len (d : DataFrame) : Z := Z.of_nat (length (rows d)).

Definition newline : text := [10%N].

Section Display.

(** [df.to_string(index=False)] of [pandas]. *)
Variable to_string : DataFrame -> text.

(** [Text2SQLSystem.display_results]: the texts it prints, one per
    call of [print]. *)
Definition display_results (result_dict : ReturnDict) (max_rows : Z)
  : list text :=
  match get_last_successful_result result_dict with
  | (Some (c :: s), Some d) =>
      let stmt := c :: s in
      [ newline ++ repeat 61%N 50;
        [127919%N] ++ py " FINAL RESULTS";
        repeat 61%N 50;
        py "SQL Query:" ++ newline ++ stmt;
        newline ++ py "Results (" ++ str_of_int (len d) ++ py " rows):";
        to_string (head max_rows d) ]
      ++ (if (max_rows <? len d)%Z
          then [py "... and " ++ str_of_int (len d - max_rows) ++ py " more rows"]
          else [])
  | _ =>
      [ newline ++ [10060%N] ++ py " No successful results to display" ]
      ++ (if is_nil (error_reason result_dict) then []
          else [py "Last error reasoning: " ++ last (error_reason result_dict) []])
  end.

End Display.

(** The messages of the chat history of [web_ui.py]. *)
Inductive MessageType := user | bot_success | bot_error | error.

Inductive Content :=
| Plain (t : text)
| ResponseContent (stmt : text) (dataframe : DataFrame)
    (error_corrections : list text) (attempts : nat).

Record Message := {
  msg_type : MessageType;
  content : Content;
  timestamp : Z }.

(** What [process_user_query] reads and writes of [st.session_state]. *)
Record Session := {
  text2sql_system : option System;
  schema_info : text;
  db_connector : DatabaseConnector;
  chat_history : list Message }.

Definition append_message (m : Message) (ss : Session) : Session :=
  {| text2sql_system := text2sql_system ss;
     schema_info := schema_info ss;
     db_connector := db_connector ss;
     chat_history := chat_history ss ++ [m] |}.

Definition set_system (sys : System) (ss : Session) : Session :=
  {| text2sql_system := Some sys;
     schema_info := schema_info ss;
     db_connector := db_connector ss;
     chat_history := chat_history ss |}.

Definition no_working_query : text :=
  py "I couldn't generate a working SQL query for your question.".

(** The reply to a run: the lines "Get final result" of
    [process_user_query]. *)
Definition reply_to (run : Run) (now : Z) : Message :=
  let result := trace run in
  match get_last_successful_result result with
  | (Some (c :: s), Some d) =>
      {| msg_type := bot_success;
         content := ResponseContent (c :: s) d (error_reason result)
                      (length (sql result));
         timestamp := now |}
  | _ =>
      {| msg_type := bot_error;
         content :=
           Plain (if is_nil (error_reason result) then no_working_query
                  else no_working_query ++ py " Last error: "
                         ++ firstn 200 (last (error_reason result) [])
                         ++ py "...");
         timestamp := now |}
  end.

(** [process_user_query], with the two values of [datetime.now()] it
    uses.  [query] does not raise in this model; a run without result
    takes the place of the last [except] clause. *)
Definition process_user_query (pf : Platform) (t_user t_reply : Z)
    (q : text) (ss : Session) : Session :=
  let ss :=
    append_message {| msg_type := user; content := Plain q; timestamp := t_user |}
      ss in
  let initialised :=
    match text2sql_system ss with
    | Some sys => Return (ss, sys)
    | None =>
        match new_system pf (py "gpt-4o-mini") (py "gpt-4o") (py "gpt-4o-mini")
                3 None with
        | Return sys => Return (set_system sys ss, sys)
        | Throw e => Throw e
        end
    end in
  match initialised with
  | Throw e =>
      append_message
        {| msg_type := error;
           content := Plain (py "Failed to initialize AI system: " ++ e);
           timestamp := t_reply |} ss
  | Return (ss, sys) =>
      match query sys q (schema_info ss) (db_connector ss) with
      | Some run => append_message (reply_to run t_reply) ss
      | None =>
          append_message
            {| msg_type := error;
               content := Plain (py "Error processing query: ");
               timestamp := t_reply |} ss
      end
  end.

(** The questions of a session, each with the two times of its
    processing, asked one after the other. *)
Definition ask (pf : Platform) (ss : Session) (x : Z * Z * text) : Session :=
  process_user_query pf (fst (fst x)) (snd (fst x)) (snd x) ss.

Definition ask_all (pf : Platform) (qs : list (Z * Z * text)) (ss : Session)
  : Session :=
  fold_left (ask pf) qs ss.

(** The texts of the messages of type 'user' in a history. *)
Fixpoint questions_of (h : list Message) : list text :=
  match h with
  | [] => []
  | m :: h' =>
      match msg_type m, content m with
      | user, Plain t => t :: questions_of h'
      | _, _ => questions_of h'
      end
  end.

(** A platform without API key, and one with a key whose agents are
    those of [stubborn]. *)
Definition no_key : Platform :=
  {| OPENAI_API_KEY := None;
     dspy_agents := fun _ _ _ _ =>
       Return {| agent_sql := sql_agent (stubborn 3);
                 agent_reasoning := error_reasoning_agent (stubborn 3);
                 agent_fix := error_fix_agent (stubborn 3) |} |}.

Definition with_key : Platform :=
  {| OPENAI_API_KEY := Some (py "sk-test");
     dspy_agents := dspy_agents no_key |}.

Definition fresh_session (db : DatabaseConnector) : Session :=
  {| text2sql_system := None; schema_info := schema;
     db_connector := db; chat_history := [] |}.

End Frontend.

(** * Facts about the text operations *)

Module PyStrFacts.
Import PyStr.

Lemma startswith_app p b : startswith p (p ++ b) = true.
Proof.
  induction p as [|x p IH]; simpl; [reflexivity|].
  now rewrite N.eqb_refl, IH.
Qed.

Lemma startswith_inv p : forall s, startswith p s = true -> exists b, s = p ++ b.
Proof.
  induction p as [|x p IH]; intros s H.
  - now exists s.
  - destruct s as [|y s]; simpl in H; [discriminate|].
    apply andb_true_iff in H as [Hxy Hps].
    apply N.eqb_eq in Hxy; subst y.
    destruct (IH _ Hps) as [b ->]. now exists b.
Qed.

Lemma find_unfold p s :
  find p s = if startswith p s then Some 0
             else match s with
                  | [] => None
                  | _ :: s' => option_map S (find p s')
                  end.
Proof. now destruct s. Qed.

Lemma find_Some_app p : forall s i,
  find p s = Some i -> s = firstn i s ++ p ++ skipn (i + length p) s.
Proof.
  induction s as [|c s IH]; intros i H; simpl in H.
  - destruct (startswith p []) eqn:E; [|discriminate].
    injection H as <-. destruct p; [reflexivity | discriminate].
  - destruct (startswith p (c :: s)) eqn:E.
    + injection H as <-. destruct (startswith_inv _ _ E) as [b Hb].
      rewrite Hb at 1. simpl firstn. simpl "++". f_equal.
      rewrite Hb. change (0 + length p) with (length p).
      now rewrite skipn_app, skipn_all, Nat.sub_diag.
    + destruct (find p s) as [j|] eqn:F; [|discriminate].
      injection H as <-. simpl. f_equal. now apply IH.
Qed.

(** [find] answers with the leftmost occurrence. *)
Lemma find_leftmost p : forall s i,
  find p s = Some i ->
  startswith p (skipn i s) = true
  /\ forall k, k < i -> startswith p (skipn k s) = false.
Proof.
  induction s as [|c s IH]; intros i H; rewrite find_unfold in H.
  - destruct (startswith p []) eqn:E; [|discriminate].
    injection H as <-. split; [exact E | intros k Hk; lia].
  - destruct (startswith p (c :: s)) eqn:E.
    + injection H as <-. split; [exact E | intros k Hk; lia].
    + destruct (find p s) as [j|] eqn:F; [|discriminate].
      injection H as <-. destruct (IH j eq_refl) as [H1 H2].
      split; [exact H1|]. intros [|k] Hk; [exact E|].
      apply H2. lia.
Qed.

Lemma startswith_firstn p : forall k s,
  startswith p (firstn k s) = true -> startswith p s = true.
Proof.
  induction p as [|x p IH]; intros k s H; [reflexivity|].
  destruct k, s; simpl in *; try discriminate.
  apply andb_true_iff in H as [-> H]. simpl. now apply (IH k).
Qed.

(** No occurrence lies before the one [find] answers with. *)
Lemma find_before p : p <> [] -> forall s i,
  find p s = Some i -> find p (firstn i s) = None.
Proof.
  intros Hne. induction s as [|c s IH]; intros i H; rewrite find_unfold in H.
  - destruct (startswith p []); [|discriminate]. injection H as <-.
    now destruct p.
  - destruct (startswith p (c :: s)) eqn:E.
    + injection H as <-. now destruct p.
    + destruct (find p s) as [j|] eqn:F; [|discriminate].
      injection H as <-. rewrite find_unfold.
      destruct (startswith p (firstn (S j) (c :: s))) eqn:E'.
      * apply startswith_firstn in E'. congruence.
      * simpl. now rewrite (IH j eq_refl).
Qed.

Lemma contains_occurs p s : contains p s = true <-> occurs p s.
Proof.
  unfold contains. split.
  - destruct (find p s) as [i|] eqn:F; [intros _|discriminate].
    exists (firstn i s), (skipn (i + length p) s). now apply find_Some_app.
  - intros (a & b & ->). induction a as [|c a IH]; rewrite find_unfold.
    + simpl. now rewrite startswith_app.
    + simpl. destruct (startswith p (c :: a ++ p ++ b)); [reflexivity|].
      destruct (find p (a ++ p ++ b)); [reflexivity | discriminate].
Qed.

Lemma not_contains p s : contains p s = false <-> ~ occurs p s.
Proof.
  rewrite <- contains_occurs. destruct (contains p s); split; congruence.
Qed.

Lemma contains_false_find p s : contains p s = false -> find p s = None.
Proof. unfold contains. now destruct (find p s). Qed.

Lemma occurs_trans p m s : occurs p m -> occurs m s -> occurs p s.
Proof.
  intros (a & b & ->) (a' & b' & ->).
  exists (a' ++ a), (b ++ b'). now rewrite <- !app_assoc.
Qed.

Lemma occurs_app_l p u v : occurs p u -> occurs p (u ++ v).
Proof.
  intros (a & b & ->). exists a, (b ++ v). now rewrite <- !app_assoc.
Qed.

Lemma occurs_app_r p u v : occurs p v -> occurs p (u ++ v).
Proof.
  intros (a & b & ->). exists (u ++ a), b. now rewrite <- !app_assoc.
Qed.

(** A text that starts a text cut by [c] either ends before [c] or
    holds [c]. *)
Lemma prefix_cut p : forall u (c : char) v b,
  p ++ b = u ++ c :: v -> (exists t, u = p ++ t) \/ In c p.
Proof.
  induction p as [|y p IH]; intros u c v b H.
  - left. now exists u.
  - destruct u as [|x u]; simpl in H; injection H as -> H.
    + right. now left.
    + destruct (IH _ _ _ _ H) as [[t ->] | Hin].
      * left. now exists t.
      * right. now right.
Qed.

(** An occurrence in a text cut by a character the pattern lacks lies on
    one side of the cut. *)
Lemma occurs_cut p (c : char) : p <> [] -> ~ In c p ->
  forall u v, occurs p (u ++ c :: v) -> occurs p u \/ occurs p v.
Proof.
  intros Hne Hc u v (a & b & H). revert u H.
  induction a as [|x a IH]; intros u H.
  - simpl in H. symmetry in H.
    destruct (prefix_cut _ _ _ _ _ H) as [[t ->] | Hin]; [|contradiction].
    left. now exists [], t.
  - destruct u as [|y u]; simpl in H; injection H as <- H.
    + right. now exists a, b.
    + destruct (IH _ H) as [Hu | Hv]; [left | now right].
      now apply (occurs_app_r p [y] u).
Qed.

(** *** [split] and [replace] where the pattern does not occur *)

Lemma split_absent sep s : find sep s = None -> split sep s = [s].
Proof.
  intros H. destruct s as [|c s]; simp split; [reflexivity|].
  now rewrite H.
Qed.

Lemma replace_absent old new count s :
  find old s = None -> replace old new count s = s.
Proof.
  intros H. destruct s as [|c s]; simp replace; [reflexivity|].
  destruct (spend count) as [k|]; cbn [replace_unfold_clause_2]; [|reflexivity].
  now rewrite H.
Qed.

Lemma split_found sep c s i :
  find sep (c :: s) = Some i ->
  split sep (c :: s) = firstn i (c :: s) :: split sep (skipn (i + length sep - 1) s).
Proof. intros H. simp split. now rewrite H. Qed.

(** *** [strip] *)

Lemma lstrip_suffix s : exists a, s = a ++ lstrip s.
Proof.
  induction s as [|c s [a IH]]; simpl.
  - now exists [].
  - destruct (is_space c); [|now exists []].
    exists (c :: a). simpl. now f_equal.
Qed.

Lemma rstrip_prefix s : exists b, s = rstrip s ++ b.
Proof.
  induction s as [|c s [b IH]]; simpl.
  - now exists [].
  - destruct (rstrip s) as [|y r] eqn:E.
    + destruct (is_space c).
      * now exists (c :: s).
      * exists b. simpl in *. now f_equal.
    + exists b. simpl in *. now f_equal.
Qed.

Lemma occurs_strip p s : occurs p (strip s) -> occurs p s.
Proof.
  unfold strip. intros H.
  destruct (lstrip_suffix s) as [a Ha]. rewrite Ha.
  apply occurs_app_r.
  destruct (rstrip_prefix (lstrip s)) as [b Hb]. rewrite Hb.
  now apply occurs_app_l.
Qed.

(** *** Words *)

Lemma fields_not_nil s : fields s <> [].
Proof.
  destruct s as [|c s]; simpl; [discriminate|].
  destruct (is_space c); [discriminate|].
  destruct (fields s); discriminate.
Qed.

Lemma fields_ws_free s : forall w, In w (fields s) -> ws_free w.
Proof.
  induction s as [|c s IH]; simpl; intros w Hw.
  - destruct Hw as [<- | []]. intros ? [].
  - destruct (is_space c) eqn:E.
    + destruct Hw as [<- | Hw]; [intros ? [] | now apply IH].
    + destruct (fields s) as [|h t].
      * destruct Hw as [<- | []]. intros x [<- | []]. exact E.
      * destruct Hw as [<- | Hw].
        -- intros x [<- | Hx]; [exact E|]. apply (IH h); [now left | exact Hx].
        -- apply IH. now right.
Qed.

Lemma fields_head_prefix s : exists b, s = hd [] (fields s) ++ b.
Proof.
  induction s as [|c s [b IH]]; simpl.
  - now exists [].
  - destruct (is_space c); [now exists (c :: s)|].
    destruct (fields s) as [|h t] eqn:E.
    + now destruct (fields_not_nil s).
    + exists b. simpl in *. now f_equal.
Qed.

Lemma fields_occurs s : forall w, In w (fields s) -> occurs w s.
Proof.
  induction s as [|c s IH]; simpl; intros w Hw.
  - destruct Hw as [<- | []]. now exists [], [].
  - destruct (is_space c).
    + destruct Hw as [<- | Hw]; [now exists [], (c :: s)|].
      apply (occurs_app_r w [c] s). now apply IH.
    + destruct (fields_head_prefix s) as [b Hb].
      destruct (fields s) as [|h t]; simpl in *.
      * destruct Hw as [<- | []]. now exists [], s.
      * destruct Hw as [<- | Hw].
        -- exists [], b. simpl. now f_equal.
        -- apply (occurs_app_r w [c] s). apply IH. now right.
Qed.

Lemma split_ws_word s w :
  In w (split_ws s) -> occurs w s /\ ws_free w /\ w <> [].
Proof.
  unfold split_ws. intros H. apply filter_In in H as [Hin Hne].
  repeat split.
  - now apply fields_occurs.
  - now apply (fields_ws_free s).
  - now destruct w.
Qed.

Lemma fields_word_sep w c s :
  ws_free w -> is_space c = true -> fields (w ++ c :: s) = w :: fields s.
Proof.
  intros Hw Hc. induction w as [|x w IH]; simpl.
  - now rewrite Hc.
  - rewrite (Hw x) by now left.
    rewrite IH; [reflexivity|]. intros y Hy. apply Hw. now right.
Qed.

Lemma fields_word w : ws_free w -> fields w = [w].
Proof.
  intros Hw. induction w as [|x w IH]; simpl; [reflexivity|].
  rewrite (Hw x) by now left.
  rewrite IH; [reflexivity|]. intros y Hy. apply Hw. now right.
Qed.

Lemma split_ws_join ws :
  (forall w, In w ws -> ws_free w /\ w <> []) ->
  split_ws (join (py " ") ws) = ws.
Proof.
  unfold split_ws. induction ws as [|w ws IH]; intros H; [reflexivity|].
  destruct (H w (or_introl eq_refl)) as [Hf Hne].
  assert (Hw : nonempty w = true) by now destruct w.
  destruct ws as [|w' ws].
  - simpl join. rewrite fields_word by exact Hf. simpl. now rewrite Hw.
  - change (join (py " ") (w :: w' :: ws))
      with (w ++ 32%N :: join (py " ") (w' :: ws)).
    rewrite fields_word_sep by (exact Hf || reflexivity).
    simpl filter. rewrite Hw. f_equal. apply IH.
    intros x Hx. apply H. now right.
Qed.

Lemma occurs_join p ws :
  p <> [] -> ws_free p -> occurs p (join (py " ") ws) ->
  exists w, In w ws /\ occurs p w.
Proof.
  intros Hne Hf. induction ws as [|w ws IH]; intros H.
  - destruct H as (a & b & H). destruct a, p; try discriminate. congruence.
  - destruct ws as [|w' ws].
    + exists w. split; [now left | exact H].
    + change (join (py " ") (w :: w' :: ws))
        with (w ++ 32%N :: join (py " ") (w' :: ws)) in H.
      apply occurs_cut in H; [|exact Hne|].
      * destruct H as [H | H]; [exists w; split; [now left | exact H]|].
        destruct (IH H) as (x & Hx & Hp). exists x. split; [now right | exact Hp].
      * intros Hin. now apply Hf in Hin.
Qed.

Lemma collapse_idem s : collapse (collapse s) = collapse s.
Proof.
  unfold collapse at 1. unfold collapse at 2. f_equal.
  apply split_ws_join. intros w Hw. now apply split_ws_word in Hw.
Qed.

Lemma occurs_collapse p s :
  p <> [] -> ws_free p -> occurs p (collapse s) -> occurs p s.
Proof.
  intros Hne Hf H. destruct (occurs_join _ _ Hne Hf H) as (w & Hw & Hp).
  apply split_ws_word in Hw as [Hw _]. exact (occurs_trans _ _ _ Hp Hw).
Qed.

Lemma split_ws_lstrip s : split_ws (lstrip s) = split_ws s.
Proof.
  unfold split_ws. induction s as [|c s IH]; simpl; [reflexivity|].
  destruct (is_space c) eqn:E; [exact IH|].
  simpl. now rewrite E.
Qed.

Lemma fields_rstrip s :
  exists k, fields s = fields (rstrip s) ++ repeat [] k.
Proof.
  induction s as [|c s [k IH]].
  - now exists 0.
  - simpl. destruct (rstrip s) as [|y r] eqn:E.
    + simpl in IH. destruct (is_space c) eqn:Ec.
      * exists (S k). rewrite IH. reflexivity.
      * exists k. rewrite IH. simpl. now rewrite Ec.
    + destruct (is_space c) eqn:Ec.
      * exists k. simpl. rewrite Ec, IH. reflexivity.
      * exists k. change (fields (c :: y :: r))
          with (if is_space c then [] :: fields (y :: r)
                else match fields (y :: r) with
                     | [] => [[c]]
                     | w :: ws => (c :: w) :: ws
                     end).
        rewrite Ec, IH.
        destruct (fields (y :: r)) as [|h t] eqn:F; [|reflexivity].
        now destruct (fields_not_nil (y :: r)).
Qed.

Lemma split_ws_strip s : split_ws (strip s) = split_ws s.
Proof.
  unfold strip. rewrite <- (split_ws_lstrip s).
  unfold split_ws. destruct (fields_rstrip (lstrip s)) as [k ->].
  rewrite filter_app.
  replace (filter nonempty (repeat [] k)) with (@nil text).
  - now rewrite app_nil_r.
  - induction k; simpl; [reflexivity | assumption].
Qed.

End PyStrFacts.

(** * Facts about the sanitizer *)

Module SanitizerFacts.
Import PyStr PyStrFacts.

Lemma ws_freeb_spec w : ws_freeb w = true -> ws_free w.
Proof.
  unfold ws_freeb, ws_free. rewrite forallb_forall. intros H c Hc.
  apply H in Hc. now destruct (is_space c).
Qed.

Lemma split_not_nil sep s : split sep s <> [].
Proof.
  destruct s as [|c s]; simp split; [discriminate|].
  destruct (find sep (c :: s)); discriminate.
Qed.

Lemma cut_markers_absent ms : forall y,
  (forall m, In m ms -> contains m y = false) ->
  fold_left cut_marker ms y = y.
Proof.
  induction ms as [|m ms IH]; intros y H; [reflexivity|].
  simpl. unfold cut_marker at 2. rewrite (H m) by now left.
  apply IH. intros m' Hm'. apply H. now right.
Qed.

Lemma strip_keeps_absent p x :
  contains p x = false -> contains p (strip x) = false.
Proof.
  intros Hp. apply not_contains. apply not_contains in Hp.
  intros H. apply Hp. now apply occurs_strip.
Qed.

Lemma remove_leading_sql_absent x :
  contains (py "sql") x = false -> remove_leading_sql x = x.
Proof.
  intros H. unfold remove_leading_sql.
  apply replace_absent. now apply contains_false_find.
Qed.

(** On a text without fence, 'sql' or marker the sanitizer is the
    whitespace collapse. *)
Lemma clean_plain x :
  contains (py "```") x = false ->
  contains (py "sql") x = false ->
  (forall m, In m completion_markers -> contains m x = false) ->
  clean_llm_response x = collapse x.
Proof.
  intros Hfence Hsql Hmark.
  unfold clean_llm_response, remove_code_blocks.
  rewrite split_absent by now apply contains_false_find.
  change (3 <=? length [x]) with false. cbv iota.
  rewrite remove_leading_sql_absent by now apply strip_keeps_absent.
  unfold remove_completion_artifacts.
  rewrite cut_markers_absent
    by (intros m Hm; apply strip_keeps_absent; now apply Hmark).
  unfold collapse. now rewrite split_ws_strip.
Qed.

Lemma collapse_keeps_absent p x :
  p <> [] -> ws_freeb p = true ->
  contains p x = false -> contains p (collapse x) = false.
Proof.
  intros Hne Hf Hp. apply not_contains. apply not_contains in Hp.
  intros H. apply Hp. unfold collapse in H.
  destruct (occurs_join _ _ Hne (ws_freeb_spec _ Hf) H) as (w & Hw & Hpw).
  apply split_ws_word in Hw as [Hw _]. exact (occurs_trans _ _ _ Hpw Hw).
Qed.

(** Every marker holds a marker that has no whitespace in it. *)
Lemma marker_core m :
  In m completion_markers ->
  exists k, In k completion_markers /\ k <> [] /\ ws_freeb k = true
            /\ contains k m = true.
Proof.
  intros Hm.
  assert (Hash : In (py "#") completion_markers) by (vm_compute; tauto).
  simpl in Hm.
  destruct Hm as [<- | [<- | [<- | [<- | [<- | [<- | []]]]]]].
  1-3: exists (py "#"); repeat split; try exact Hash; discriminate.
  - exists (py "Completed:"). repeat split; [vm_compute; tauto | discriminate].
  - exists (py "###"). repeat split; [vm_compute; tauto | discriminate].
  - exists (py "#"). repeat split; [exact Hash | discriminate].
Qed.

Lemma collapse_keeps_markers_absent x :
  (forall m, In m completion_markers -> contains m x = false) ->
  forall m, In m completion_markers -> contains m (collapse x) = false.
Proof.
  intros H m Hm.
  destruct (marker_core m Hm) as (k & Hk & Hne & Hf & Hkm).
  apply not_contains. intros Hocc.
  assert (Hkx : contains k (collapse x) = false)
    by (apply collapse_keeps_absent; auto).
  apply not_contains in Hkx. apply Hkx.
  apply contains_occurs in Hkm. exact (occurs_trans _ _ _ Hkm Hocc).
Qed.

(** *** Fence extraction (C9) *)

Lemma skipn_after_fence i (c : char) s :
  skipn (i + length (py "```") - 1) s = skipn (i + 3) (c :: s).
Proof.
  change (length (py "```")) with 3.
  replace (i + 3 - 1) with (i + 2) by lia.
  replace (i + 3) with (S (i + 2)) by lia. reflexivity.
Qed.

Lemma fenced_block_sound raw b :
  fenced_block raw = Some b ->
  exists a c, raw = a ++ py "```" ++ b ++ py "```" ++ c
              /\ contains (py "```") a = false
              /\ contains (py "```") b = false.
Proof.
  unfold fenced_block.
  destruct (find (py "```") raw) as [i|] eqn:F1; [|discriminate].
  destruct (find (py "```") (skipn (i + 3) raw)) as [j|] eqn:F2; [|discriminate].
  intros [= <-].
  exists (firstn i raw), (skipn (j + 3) (skipn (i + 3) raw)).
  unfold contains.
  rewrite (find_before (py "```")) by (discriminate || assumption).
  rewrite (find_before (py "```")) by (discriminate || assumption).
  apply find_Some_app in F1. apply find_Some_app in F2.
  change (length (py "```")) with 3 in *.
  now rewrite <- F2.
Qed.

(** The first stanza, in the words of the specification. *)
Lemma remove_code_blocks_spec raw :
  remove_code_blocks raw =
    strip match fenced_block raw with
          | Some b => replace (py "sql") [] None b
          | None => raw
          end.
Proof.
  unfold remove_code_blocks, fenced_block.
  destruct (find (py "```") raw) as [i|] eqn:F1.
  2: { now rewrite split_absent. }
  destruct raw as [|c s]; [discriminate|].
  rewrite (split_found _ _ _ _ F1), (skipn_after_fence i c s).
  destruct (find (py "```") (skipn (i + 3) (c :: s))) as [j|] eqn:F2.
  2: { now rewrite split_absent. }
  destruct (skipn (i + 3) (c :: s)) as [|c' s'] eqn:E; [discriminate|].
  rewrite (split_found _ _ _ _ F2).
  destruct (split (py "```") (skipn (j + length (py "```") - 1) s')) eqn:E3.
  - now destruct (split_not_nil _ _ E3).
  - reflexivity.
Qed.

(** C9: the text that goes on to the later steps is the content between
    the first pair of fences when there are two fences (what comes
    before the first fence and what lies between the two hold no
    fence), and the whole text otherwise;
    'prose ```sql SELECT 1``` prose' gives 'SELECT 1'. *)
Theorem fence_extraction raw :
  clean_llm_response raw =
    collapse
      (remove_completion_artifacts
         (remove_leading_sql
            (strip match fenced_block raw with
                   | Some b => replace (py "sql") [] None b
                   | None => raw
                   end)))
  /\ match fenced_block raw with
     | Some b => exists a c, raw = a ++ py "```" ++ b ++ py "```" ++ c
                             /\ contains (py "```") a = false
                             /\ contains (py "```") b = false
     | None => True
     end
  /\ fenced_block (py "prose ```sql SELECT 1``` prose") = Some (py "sql SELECT 1")
  /\ clean_llm_response (py "prose ```sql SELECT 1``` prose") = py "SELECT 1".
Proof.
  split; [|split; [|split; vm_compute; reflexivity]].
  - unfold clean_llm_response. now rewrite remove_code_blocks_spec.
  - destruct (fenced_block raw) as [b|] eqn:E; [|exact I].
    now apply fenced_block_sound.
Qed.

(** *** The language tag (C7) *)

(** C7 as stated fails.  The match is on the lowercase literal: a tag
    written 'SQL' stays.  And the two [replace] calls are not tied to
    the start of the content: a fenced block that does not begin with
    'sql' loses every 'sql' inside it (here the one of
    [sqlite_master]), a text without fences loses its first 'sql'
    wherever it stands. *)
Lemma tag_match_is_literal :
  clean_llm_response (py "```SQL SELECT 1```") = py "SQL SELECT 1"
  /\ startswith (py "sql") (py "SELECT name FROM sqlite_master") = false
  /\ clean_llm_response (py "```SELECT name FROM sqlite_master```")
     = py "SELECT name FROM ite_master"
  /\ clean_llm_response (py "SELECT name FROM sqlite_master")
     = py "SELECT name FROM ite_master".
Proof. repeat split; vm_compute; reflexivity. Qed.

Lemma replace_leading_sql b :
  contains (py "sql") b = false ->
  replace (py "sql") [] None (py "sql" ++ b) = b.
Proof.
  intros H. change (py "sql" ++ b) with (115 :: (113 :: 108 :: b))%N.
  simp replace. cbn [spend replace_unfold_clause_2].
  match goal with
  | |- context [find ?p ?s] =>
      assert (F : find p s = Some 0) by reflexivity;
      rewrite F
  end.
  cbn [replace_unfold_clause_2_clause_2 firstn app].
  change (skipn (0 + length (py "sql") - 1) (113 :: 108 :: b)%N) with b.
  apply replace_absent. now apply contains_false_find.
Qed.

(** C7, amended: the tag is the lowercase literal 'sql', matched as
    written.  When the text [b] holds no 'sql': a fenced block made of
    'sql' and [b] leaves the first two stanzas as [b] stripped, the tag
    gone; a fenced block [b], or a text [b] without two fences, leaves
    them as [b] stripped, nothing gone. *)
Theorem language_tag_stripping raw b :
  contains (py "sql") b = false ->
  (fenced_block raw = Some (py "sql" ++ b) ->
   remove_leading_sql (remove_code_blocks raw) = strip b)
  /\ (fenced_block raw = Some b ->
      remove_leading_sql (remove_code_blocks raw) = strip b)
  /\ (fenced_block raw = None -> raw = b ->
      remove_leading_sql (remove_code_blocks raw) = strip b).
Proof.
  intros Hb. rewrite remove_code_blocks_spec.
  pose proof (remove_leading_sql_absent _ (strip_keeps_absent _ _ Hb)) as Hs.
  repeat split.
  - intros ->. now rewrite replace_leading_sql.
  - intros ->. now rewrite replace_absent by now apply contains_false_find.
  - intros -> ->. exact Hs.
Qed.

Lemma language_tag_stripping_witness :
  remove_leading_sql (remove_code_blocks (py "```sql SELECT 1```"))
    = py "SELECT 1"
  /\ remove_leading_sql (remove_code_blocks (py "```SQL SELECT 1```"))
    = py "SQL SELECT 1"
  /\ remove_leading_sql (remove_code_blocks (py "  SELECT 1"))
    = py "SELECT 1".
Proof.
  split; [|split].
  - refine (proj1 (language_tag_stripping
                      (py "```sql SELECT 1```") (py " SELECT 1") _) _);
      vm_compute; reflexivity.
  - refine (proj1 (proj2 (language_tag_stripping
                      (py "```SQL SELECT 1```") (py "SQL SELECT 1") _)) _);
      vm_compute; reflexivity.
  - refine (proj2 (proj2 (language_tag_stripping
                      (py "  SELECT 1") (py "  SELECT 1") _)) _ _);
      vm_compute; reflexivity.
Defined.

(** *** Idempotence (C8) *)

(** C8 as stated fails: 'sql sql' has neither fence nor marker, the
    first pass leaves 'sql' and the second pass leaves nothing. *)
Lemma sanitize_twice_differs :
  contains (py "```") (py "sql sql") = false
  /\ forallb (fun m => negb (contains m (py "sql sql"))) completion_markers = true
  /\ clean_llm_response (py "sql sql") = py "sql"
  /\ clean_llm_response (clean_llm_response (py "sql sql")) = []
  /\ clean_llm_response (clean_llm_response (py "sql sql"))
     <> clean_llm_response (py "sql sql").
Proof. repeat split; vm_compute; congruence. Qed.

(** C8, amended: on a text with no triple-backtick fence, no
    completion marker and no 'sql' in it, sanitizing twice is
    sanitizing once. *)
Theorem sanitize_idempotent x :
  contains (py "```") x = false ->
  (forall m, In m completion_markers -> contains m x = false) ->
  contains (py "sql") x = false ->
  clean_llm_response (clean_llm_response x) = clean_llm_response x.
Proof.
  intros Hfence Hmark Hsql.
  rewrite (clean_plain x Hfence Hsql Hmark).
  rewrite clean_plain.
  - apply collapse_idem.
  - apply collapse_keeps_absent; [discriminate | reflexivity | exact Hfence].
  - apply collapse_keeps_absent; [discriminate | reflexivity | exact Hsql].
  - now apply collapse_keeps_markers_absent.
Qed.

Lemma sanitize_idempotent_witness :
  clean_llm_response (clean_llm_response (py "  SELECT a,   b FROM t  "))
  = clean_llm_response (py "  SELECT a,   b FROM t  ").
Proof.
  apply (sanitize_idempotent (py "  SELECT a,   b FROM t  ")).
  - vm_compute. reflexivity.
  - intros m Hm. vm_compute in Hm.
    destruct Hm as [<- | [<- | [<- | [<- | [<- | [<- | []]]]]]];
      vm_compute; reflexivity.
  - vm_compute. reflexivity.
Defined.

End SanitizerFacts.

(** * Facts about the loop *)

Module LoopFacts.
Import Text2SQLSystem.

#[local] Open Scope Z_scope.

#[local] Arguments py : simpl never.
#[local] Arguments firstn : simpl never.
#[local] Arguments clean_llm_response : simpl never.

Ltac unfold_iteration :=
  unfold iteration, try_except, try_execute, reason_and_fix, bind, modify,
    call_agent, call_execute, raise, ret.

(** Every way through the body: the connector raises or returns, the
    frame is empty or not, the reasoning agent raises or answers, with
    the sentinel or without, the fix agent raises or answers. *)
Ltac iteration_cases :=
  unfold_iteration;
  repeat match goal with
    | |- context [match execute_query ?d ?i ?s with _ => _ end] =>
        destruct (execute_query d i s) eqn:?
    | |- context [if empty ?d then _ else _] => destruct (empty d) eqn:?
    | |- context [match error_reasoning_agent ?a ?i ?m ?s ?inf with _ => _ end] =>
        destruct (error_reasoning_agent a i m s inf) eqn:?
    | |- context [if negb (PyStr.contains ?p ?t) then _ else _] =>
        destruct (PyStr.contains p t) eqn:?
    | |- context [match error_fix_agent ?a ?i ?t with _ => _ end] =>
        destruct (error_fix_agent a i t) eqn:?
    | _ => progress cbn
    end.

Section Loop.

Variable self : System.
Variable information : Information.
Variable db : DatabaseConnector.

Abbreviation iteration := (iteration self information db).
Abbreviation while_loop := (while_loop self information db).

Lemma iteration_retry_count st :
  retry_count (iteration st) = retry_count st + 1
  \/ retry_count (iteration st) = max_retry self + 2.
Proof. iteration_cases; lia. Qed.

Lemma iteration_sql st :
  sql (return_dict (iteration st)) = sql (return_dict st) ++ [attempt_sql st].
Proof. iteration_cases; reflexivity. Qed.

Lemma while_loop_step fuel st :
  retry_count st < max_retry self ->
  while_loop (S fuel) st = while_loop fuel (iteration st).
Proof. intros H. apply Z.ltb_lt in H. simpl. now rewrite H. Qed.

Lemma while_loop_done fuel st :
  max_retry self <= retry_count st -> while_loop fuel st = Some st.
Proof. intros H. apply Z.ltb_ge in H. destruct fuel; simpl; now rewrite H. Qed.

(** The loop returns, and what every pass of the body keeps holds at
    the end. *)
Lemma while_loop_invariant (P : Locals -> Prop) :
  (forall st, retry_count st < max_retry self -> P st -> P (iteration st)) ->
  forall fuel st,
    max_retry self - retry_count st <= Z.of_nat fuel -> P st ->
    exists st', while_loop fuel st = Some st' /\ P st'
                /\ max_retry self <= retry_count st'.
Proof.
  intros Hstep. induction fuel as [|fuel IH]; intros st Hfuel HP; simpl;
    destruct (retry_count st <? max_retry self) eqn:E;
    try (apply Z.ltb_ge in E; exists st; auto);
    apply Z.ltb_lt in E.
  - lia.
  - apply IH; [|now apply Hstep].
    destruct (iteration_retry_count st) as [-> | ->]; lia.
Qed.

(** More fuel does not change what the loop returns. *)
Lemma while_loop_fuel fuel : forall st st' fuel',
  while_loop fuel st = Some st' -> (fuel <= fuel')%nat ->
  while_loop fuel' st = Some st'.
Proof.
  induction fuel as [|fuel IH]; intros st st' fuel' H Hle; simpl in H;
    destruct (retry_count st <? max_retry self) eqn:E; try discriminate.
  - destruct fuel'; simpl; now rewrite E.
  - destruct fuel' as [|fuel']; [lia|]. simpl. rewrite E.
    apply (IH _ _ _ H). lia.
  - destruct fuel'; simpl; now rewrite E.
Qed.

(** *** The pieces of one pass *)

Lemma iteration_success st d :
  execute_query db (attempt_index st) (attempt_sql st) = Returned d ->
  empty d = false ->
  iteration st =
    {| return_dict := set_df_sql st d;
       cur_response := cur_response st;
       retry_count := max_retry self + 1 + 1;
       calls := calls st ++ [CallExecute (attempt_sql st)];
       exit_site := Some ExitSuccess |}.
Proof.
  unfold attempt_index, attempt_sql, set_df_sql. intros He Hd.
  unfold_iteration. rewrite He. cbn. rewrite Hd. reflexivity.
Qed.

Lemma iteration_not_sql st msg t :
  failure_message (execute_query db (attempt_index st) (attempt_sql st)) = Some msg ->
  error_reasoning_agent self (attempt_index st) (firstn 500 msg) (attempt_sql st)
    information = Some t ->
  PyStr.contains NOT_ASKING_FOR_SQL t = true ->
  retry_count (iteration st) = max_retry self + 1 + 1
  /\ exit_site (iteration st) = Some ExitNotSql
  /\ cur_response (iteration st) = cur_response st
  /\ response (return_dict (iteration st)) = response (return_dict st)
  /\ error_reason (return_dict (iteration st)) = error_reason (return_dict st)
  /\ calls (iteration st) =
       calls st ++ [CallExecute (attempt_sql st);
                    CallErrorReasoning (firstn 500 msg) (attempt_sql st)].
Proof.
  unfold attempt_index, attempt_sql, failure_message. intros He Hr Hs.
  unfold_iteration.
  destruct (execute_query db _ _) as [e|d]; cbn.
  - injection He as ->. rewrite Hr. cbn. rewrite Hs. cbn.
    rewrite <- app_assoc. repeat split.
  - destruct (empty d); [|discriminate]. injection He as <-. cbn.
    rewrite Hr. cbn. rewrite Hs. cbn. rewrite <- app_assoc. repeat split.
Qed.

Lemma iteration_fixed st msg t r :
  failure_message (execute_query db (attempt_index st) (attempt_sql st)) = Some msg ->
  error_reasoning_agent self (attempt_index st) (firstn 500 msg) (attempt_sql st)
    information = Some t ->
  PyStr.contains NOT_ASKING_FOR_SQL t = false ->
  error_fix_agent self (attempt_index st) t = Some r ->
  retry_count (iteration st) = retry_count st + 1
  /\ exit_site (iteration st) = exit_site st
  /\ cur_response (iteration st) = r
  /\ response (return_dict (iteration st)) = response (return_dict st) ++ [r]
  /\ error_reason (return_dict (iteration st)) = error_reason (return_dict st) ++ [t]
  /\ calls (iteration st) =
       calls st ++ [CallExecute (attempt_sql st);
                    CallErrorReasoning (firstn 500 msg) (attempt_sql st);
                    CallErrorFix t].
Proof.
  unfold attempt_index, attempt_sql, failure_message. intros He Hr Hs Hf.
  unfold_iteration.
  destruct (execute_query db _ _) as [e|d]; cbn.
  - injection He as ->. rewrite Hr. cbn. rewrite Hs. cbn. rewrite Hf. cbn.
    rewrite <- !app_assoc. repeat split.
  - destruct (empty d); [|discriminate]. injection He as <-. cbn.
    rewrite Hr. cbn. rewrite Hs. cbn. rewrite Hf. cbn.
    rewrite <- !app_assoc. repeat split.
Qed.

Lemma iteration_df st :
  df (return_dict (iteration st)) =
    df (return_dict st)
    ++ match execute_query db (attempt_index st) (attempt_sql st) with
       | Returned d => [d]
       | Raised _ => []
       end.
Proof.
  unfold attempt_index, attempt_sql.
  iteration_cases; try reflexivity; now rewrite app_nil_r.
Qed.

Lemma iteration_error_reason_length st :
  (length (error_reason (return_dict (iteration st)))
   <= length (error_reason (return_dict st)) + 1)%nat.
Proof. iteration_cases; rewrite ?length_app; simpl; lia. Qed.

(** A pass that does not leave the loop has recorded no success. *)
Lemma iteration_successes st :
  successes (return_dict st) = 0%nat ->
  (successes (return_dict (iteration st)) <= 1)%nat
  /\ (retry_count (iteration st) <= max_retry self ->
      successes (return_dict (iteration st)) = 0%nat).
Proof.
  unfold successes. intros H.
  iteration_cases; rewrite ?filter_app, ?length_app, ?H; cbn;
    repeat match goal with E : empty _ = _ |- _ => rewrite E end;
    cbn; split; lia.
Qed.

Lemma iteration_empty st d :
  execute_query db (attempt_index st) (attempt_sql st) = Returned d ->
  empty d = true ->
  exit_site st = None ->
  exit_site (iteration st) <> Some ExitSuccess
  /\ df (return_dict (iteration st)) = df (return_dict st) ++ [d]
  /\ exists rest,
       calls (iteration st) =
         calls st ++ CallExecute (attempt_sql st)
           :: CallErrorReasoning
                (firstn 500 (py "Query returned empty result set"))
                (attempt_sql st)
           :: rest.
Proof.
  unfold attempt_index, attempt_sql. intros He Hd Hx.
  unfold_iteration. rewrite He. cbn. rewrite Hd. cbn.
  iteration_cases; rewrite ?Hx; repeat split; try discriminate;
    eexists; rewrite <- ?app_assoc; reflexivity.
Qed.

(** The exit of a success is taken in the pass that appended the
    statement and its frame, and in no other. *)
Lemma iteration_exit_success st :
  exit_site st = None ->
  (retry_count (iteration st) <= max_retry self -> exit_site (iteration st) = None)
  /\ (exit_site (iteration st) = Some ExitSuccess ->
      exists d, empty d = false
        /\ execute_query db (attempt_index st) (attempt_sql st) = Returned d
        /\ df (return_dict (iteration st)) = df (return_dict st) ++ [d]).
Proof.
  unfold attempt_index, attempt_sql. intros Hx.
  iteration_cases; rewrite ?Hx; split; try discriminate; try lia; auto.
  intros _. eexists. repeat split. assumption.
Qed.

End Loop.

#[local] Arguments iteration : simpl never.

Lemma returned_frames_app db : forall stmts i s,
  returned_frames db i (stmts ++ [s]) =
    returned_frames db i stmts
    ++ match execute_query db (i + length stmts) s with
       | Returned d => [d]
       | Raised _ => []
       end.
Proof.
  induction stmts as [|x stmts IH]; intros i s; simpl.
  - rewrite Nat.add_0_r. now destruct (execute_query db i s).
  - rewrite IH. replace (S i + length stmts)%nat with (i + S (length stmts))%nat by lia.
    now destruct (execute_query db i x).
Qed.

Lemma returned_frames_length db : forall stmts i,
  (length (returned_frames db i stmts) <= length stmts)%nat.
Proof.
  induction stmts as [|x stmts IH]; intros i; simpl; [lia|].
  specialize (IH (S i)). destruct (execute_query db i x); simpl; lia.
Qed.

(** *** Whole runs *)

Lemma query_invariant (P : Locals -> Prop) self q database_info db r0 :
  sql_agent self q database_info = Some r0 ->
  P (initial r0 q database_info) ->
  (forall st, retry_count st < max_retry self -> P st ->
     P (iteration self {| user_query := q; relevant_context := database_info |}
          db st)) ->
  exists st, query self q database_info db = Some (finish st) /\ P st
             /\ max_retry self <= retry_count st.
Proof.
  intros Hgen Hinit Hstep. unfold query. rewrite Hgen.
  destruct (while_loop_invariant self _ db P Hstep
              (Z.to_nat (max_retry self)) (initial r0 q database_info))
    as (st & Hloop & HP & Hrc); [simpl; lia | exact Hinit |].
  exists st. now rewrite Hloop.
Qed.

(** [query] returns, whatever the agents and the connector do. *)
Lemma query_returns self q database_info db :
  exists run, query self q database_info db = Some run.
Proof.
  destruct (sql_agent self q database_info) as [r0|] eqn:Hgen.
  - destruct (query_invariant (fun _ => True) self q database_info db r0 Hgen)
      as (st & H & _); auto.
    now exists (finish st).
  - unfold query. rewrite Hgen. eauto.
Qed.

(** The exhaustion scenario, pass by pass: no exit is taken, and there
    are as many statements and as many reasons as passes. *)
Lemma exhaustion_run self db q database_info :
  0 <= max_retry self ->
  exhaustion_scenario self db q database_info ->
  exists run, query self q database_info db = Some run
    /\ length (sql (trace run)) = Z.to_nat (max_retry self)
    /\ length (error_reason (trace run)) = Z.to_nat (max_retry self)
    /\ terminal run = Terminated_Failure.
Proof.
  intros Hmax [Hgen Hexec Hreason Hfix].
  destruct (sql_agent self q database_info) as [r0|] eqn:Hr0; [|congruence].
  pose (P := fun st : Locals =>
    exit_site st = None
    /\ retry_count st = Z.of_nat (length (sql (return_dict st)))
    /\ length (error_reason (return_dict st)) = length (sql (return_dict st))
    /\ retry_count st <= max_retry self).
  destruct (query_invariant P self q database_info db r0 Hr0)
    as (st & Hq & (Hexit & Hrc & Hlen & Hle) & Hge).
  - unfold P. simpl. repeat split; auto.
  - intros st Hlt (Hexit & Hrc & Hlen & _).
    set (inf := {| user_query := q; relevant_context := database_info |}).
    specialize (Hexec (attempt_index st) (attempt_sql st)).
    unfold fails in Hexec.
    destruct (failure_message _) as [msg|] eqn:Hmsg; [|discriminate].
    destruct (Hreason (attempt_index st) (firstn 500 msg) (attempt_sql st) inf)
      as (t & Ht & Hsent).
    destruct (error_fix_agent self (attempt_index st) t) as [r|] eqn:Hr;
      [|now destruct (Hfix (attempt_index st) t)].
    destruct (iteration_fixed self inf db st _ _ _ Hmsg Ht Hsent Hr)
      as (Hrc' & Hexit' & _ & _ & Herr & _).
    unfold P. rewrite Hrc', Hexit', Herr, iteration_sql, !length_app. simpl.
    repeat split; try lia. exact Hexit.
  - exists (finish st). split; [exact Hq|]. simpl.
    rewrite Hexit. repeat split; lia.
Qed.

(** *** The retry budget (C1, C2) *)

Ltac sample_scenario :=
  constructor;
  [ discriminate
  | reflexivity
  | intros; eexists; split; reflexivity
  | discriminate ].

(** C1 as stated fails: with [max_retry = 3], every execution failing
    and the agents always answering, the run records 3 attempts, not
    4. *)
Lemma fourth_attempt_never_made :
  exhaustion_scenario (stubborn 3) db_raising question schema
  /\ exists run,
       query (stubborn 3) question schema db_raising = Some run
       /\ length (sql (trace run)) = 3%nat
       /\ length (sql (trace run)) <> Z.to_nat (max_retry (stubborn 3) + 1)
       /\ terminal run = Terminated_Failure.
Proof.
  split; [sample_scenario|].
  eexists. split; [vm_compute; reflexivity|].
  repeat split. vm_compute. discriminate.
Qed.

(** C1, amended: when the first SQL is generated, every execution fails,
    the reasoning agent never answers with the sentinel and the fix
    agent always answers, a run with [max_retry >= 0] records exactly
    [max_retry] attempts and ends as a failure. *)
Theorem exhaustion_attempts self db q database_info :
  0 <= max_retry self ->
  exhaustion_scenario self db q database_info ->
  exists run, query self q database_info db = Some run
    /\ length (sql (trace run)) = Z.to_nat (max_retry self)
    /\ terminal run = Terminated_Failure.
Proof.
  intros Hmax Hsc.
  destruct (exhaustion_run self db q database_info Hmax Hsc)
    as (run & Hq & Hsql & _ & Hterm).
  now exists run.
Qed.

Lemma exhaustion_attempts_witness :
  exists run, query (stubborn 3) question schema db_raising = Some run
    /\ length (sql (trace run)) = 3%nat
    /\ terminal run = Terminated_Failure.
Proof.
  apply (exhaustion_attempts (stubborn 3) db_raising question schema).
  - simpl. lia.
  - sample_scenario.
Defined.

(** C2 as stated fails: in the same run the third, last attempt is
    diagnosed like the others (and a fix is asked for), so there are as
    many reasons as attempts, not one less. *)
Lemma last_attempt_is_diagnosed :
  exhaustion_scenario (stubborn 3) db_raising question schema
  /\ exists run,
       query (stubborn 3) question schema db_raising = Some run
       /\ length (sql (trace run)) = 3%nat
       /\ length (error_reason (trace run)) = 3%nat
       /\ length (filter is_reasoning_call (made run)) = 3%nat
       /\ ~ (length (error_reason (trace run)) <= length (sql (trace run)) - 1)%nat.
Proof.
  split; [sample_scenario|].
  eexists. split; [vm_compute; reflexivity|].
  repeat split. vm_compute. lia.
Qed.

(** C2, amended: in every run the reasons recorded are at most as many
    as the attempts; in the exhaustion scenario they are exactly as
    many, [max_retry] of each (3 and 3 for [max_retry = 3]). *)
Theorem reasons_at_most_attempts self db q database_info :
  exists run, query self q database_info db = Some run
    /\ (length (error_reason (trace run)) <= length (sql (trace run)))%nat
    /\ (0 <= max_retry self ->
        exhaustion_scenario self db q database_info ->
        length (error_reason (trace run)) = Z.to_nat (max_retry self)
        /\ length (sql (trace run)) = Z.to_nat (max_retry self)).
Proof.
  assert (Hle : exists run, query self q database_info db = Some run
    /\ (length (error_reason (trace run)) <= length (sql (trace run)))%nat).
  { destruct (sql_agent self q database_info) as [r0|] eqn:Hgen.
    - destruct (query_invariant
        (fun st => (length (error_reason (return_dict st))
                    <= length (sql (return_dict st)))%nat)
        self q database_info db r0 Hgen) as (st & Hq & HP & _).
      + simpl. lia.
      + intros st _ HP.
        pose proof (iteration_error_reason_length self
          {| user_query := q; relevant_context := database_info |} db st).
        rewrite iteration_sql, length_app. cbn [length]. lia.
      + now exists (finish st).
    - unfold query. rewrite Hgen. eexists. split; [reflexivity|]. simpl. lia. }
  destruct Hle as (run & Hq & Hle). exists run.
  split; [exact Hq|]. split; [exact Hle|]. intros Hmax Hsc.
  destruct (exhaustion_run self db q database_info Hmax Hsc)
    as (run' & Hq' & Hsql & Herr & _).
  rewrite Hq in Hq'. injection Hq' as <-. now split.
Qed.

Lemma reasons_at_most_attempts_witness :
  exists run, query (stubborn 3) question schema db_raising = Some run
    /\ length (error_reason (trace run)) = 3%nat
    /\ length (sql (trace run)) = 3%nat.
Proof.
  destruct (reasons_at_most_attempts (stubborn 3) db_raising question schema)
    as (run & Hq & _ & Hex).
  exists run. split; [exact Hq|].
  apply Hex.
  - simpl. lia.
  - sample_scenario.
Defined.

(** *** The sentinel (C3) *)

(** C3: a pass whose execution fails and whose reasoning text holds
    'NOT ASKING FOR SQL' is the last one, whatever is left of the
    budget: the loop returns right after it, the exit is the
    out-of-scope one, the list of reasons is the one before the pass,
    and the pass made the execution and the reasoning call and no fix
    call. *)
Theorem sentinel_ends_loop self information db st fuel msg t :
  retry_count st < max_retry self ->
  failure_message (execute_query db (attempt_index st) (attempt_sql st)) = Some msg ->
  error_reasoning_agent self (attempt_index st) (firstn 500 msg) (attempt_sql st)
    information = Some t ->
  PyStr.contains NOT_ASKING_FOR_SQL t = true ->
  exists st',
    while_loop self information db (S fuel) st = Some st'
    /\ terminal (finish st') = Terminated_OutOfScope
    /\ sql (return_dict st') = sql (return_dict st) ++ [attempt_sql st]
    /\ error_reason (return_dict st') = error_reason (return_dict st)
    /\ response (return_dict st') = response (return_dict st)
    /\ calls st' =
         calls st ++ [CallExecute (attempt_sql st);
                      CallErrorReasoning (firstn 500 msg) (attempt_sql st)]
    /\ filter is_fix_call (calls st') = filter is_fix_call (calls st).
Proof.
  intros Hlt Hmsg Hr Hs.
  destruct (iteration_not_sql self information db st msg t Hmsg Hr Hs)
    as (Hrc & Hexit & _ & Hresp & Herr & Hcalls).
  exists (iteration self information db st). repeat split; auto.
  - rewrite while_loop_step by exact Hlt. apply while_loop_done. lia.
  - unfold finish. cbn [terminal]. now rewrite Hexit.
  - apply iteration_sql.
  - rewrite Hcalls, filter_app. simpl. now rewrite app_nil_r.
Qed.

Lemma sentinel_ends_loop_witness :
  exists st',
    while_loop off_topic
      {| user_query := question; relevant_context := schema |} db_raising 3
      (initial {| generated_sql := py "SELECT 1 FROM nowhere" |} question schema)
    = Some st'
    /\ terminal (finish st') = Terminated_OutOfScope
    /\ sql (return_dict st') = [py "SELECT 1 FROM nowhere"]
    /\ error_reason (return_dict st') = []
    /\ response (return_dict st') = [{| generated_sql := py "SELECT 1 FROM nowhere" |}]
    /\ calls st' =
         [CallSqlAgent question schema;
          CallExecute (py "SELECT 1 FROM nowhere");
          CallErrorReasoning (py "no such table: usr") (py "SELECT 1 FROM nowhere")]
    /\ filter is_fix_call (calls st') = [].
Proof.
  apply (sentinel_ends_loop off_topic
           {| user_query := question; relevant_context := schema |} db_raising
           (initial {| generated_sql := py "SELECT 1 FROM nowhere" |} question schema)
           2 (py "no such table: usr") (py "SELECT 'NOT ASKING FOR SQL';")).
  - simpl. lia.
  - reflexivity.
  - reflexivity.
  - vm_compute. reflexivity.
Defined.

(** *** Empty and non-empty results (C4) *)

Lemma at_most_one_success self q database_info db :
  exists run, query self q database_info db = Some run
              /\ (successes (trace run) <= 1)%nat.
Proof.
  destruct (sql_agent self q database_info) as [r0|] eqn:Hgen.
  - destruct (query_invariant
      (fun st => (retry_count st <= max_retry self ->
                  successes (return_dict st) = 0%nat)
                 /\ (successes (return_dict st) <= 1)%nat)
      self q database_info db r0 Hgen) as (st & Hq & [_ HP] & _).
    + split; [reflexivity | unfold successes; simpl; lia].
    + intros st Hlt [H0 _].
      destruct (iteration_successes self
        {| user_query := q; relevant_context := database_info |} db st)
        as [H1 H2]; [apply H0; lia | now split].
    + now exists (finish st).
  - unfold query. rewrite Hgen. eexists. split; [reflexivity|].
    unfold successes. simpl. lia.
Qed.

(** C4: in a pass whose execution returns a frame, an empty frame makes
    the attempt a failure (the frame is kept, the exit of a success is
    not taken, the reasoning agent is called with the message of the
    empty result), and a frame that is not empty ends the loop with a
    success and nothing called after the execution; a run has at most
    one success. *)
Theorem empty_fails_nonempty_halts self information db st d fuel :
  retry_count st < max_retry self ->
  exit_site st = None ->
  execute_query db (attempt_index st) (attempt_sql st) = Returned d ->
  (if empty d
   then
     exit_site (iteration self information db st) <> Some ExitSuccess
     /\ df (return_dict (iteration self information db st))
        = df (return_dict st) ++ [d]
     /\ exists rest,
          calls (iteration self information db st) =
            calls st ++ CallExecute (attempt_sql st)
              :: CallErrorReasoning
                   (firstn 500 (py "Query returned empty result set"))
                   (attempt_sql st)
              :: rest
   else
     while_loop self information db (S fuel) st
       = Some (iteration self information db st)
     /\ terminal (finish (iteration self information db st)) = Terminated_Success
     /\ df (return_dict (iteration self information db st))
        = df (return_dict st) ++ [d]
     /\ calls (iteration self information db st)
        = calls st ++ [CallExecute (attempt_sql st)])
  /\ forall q database_info,
       exists run, query self q database_info db = Some run
                   /\ (successes (trace run) <= 1)%nat.
Proof.
  intros Hlt Hx He. split; [|intros; apply at_most_one_success].
  destruct (empty d) eqn:Hd.
  - now apply iteration_empty.
  - rewrite while_loop_step by exact Hlt.
    rewrite (iteration_success self information db st d He Hd).
    repeat split. apply while_loop_done. simpl. lia.
Qed.

Lemma empty_fails_nonempty_halts_witness :
  let st := initial {| generated_sql := py "SELECT count(*) FROM usr" |}
              question schema in
  let inf := {| user_query := question; relevant_context := schema |} in
  (exit_site (iteration (stubborn 3) inf db_no_rows st) <> Some ExitSuccess
   /\ df (return_dict (iteration (stubborn 3) inf db_no_rows st)) = [no_rows]
   /\ exists rest,
        calls (iteration (stubborn 3) inf db_no_rows st) =
          [CallSqlAgent question schema;
           CallExecute (py "SELECT count(*) FROM usr");
           CallErrorReasoning (py "Query returned empty result set")
             (py "SELECT count(*) FROM usr")] ++ rest)
  /\ (while_loop (stubborn 3) inf db_one_row 3 st
        = Some (iteration (stubborn 3) inf db_one_row st)
      /\ terminal (finish (iteration (stubborn 3) inf db_one_row st))
         = Terminated_Success
      /\ df (return_dict (iteration (stubborn 3) inf db_one_row st)) = [one_row]
      /\ calls (iteration (stubborn 3) inf db_one_row st)
         = [CallSqlAgent question schema;
            CallExecute (py "SELECT count(*) FROM usr")]).
Proof.
  intros st inf. split.
  - apply (empty_fails_nonempty_halts (stubborn 3) inf db_no_rows st no_rows 0);
      [simpl; lia | reflexivity | reflexivity].
  - apply (empty_fails_nonempty_halts (stubborn 3) inf db_one_row st one_row 2);
      [simpl; lia | reflexivity | reflexivity].
Defined.

(** *** Failure of the first generation (C5) *)

(** C5: when the SQL agent raises on the first generation, [query]
    returns the dict with its four lists empty; the only call made is
    that one call of the SQL agent. *)
Theorem generation_failure_ends_run self q database_info db :
  sql_agent self q database_info = None ->
  query self q database_info db =
    Some {| trace := {| response := []; sql := []; error_reason := []; df := [] |};
            made := [CallSqlAgent q database_info];
            terminal := Terminated_GenerationError |}.
Proof. intros H. unfold query. now rewrite H. Qed.

Lemma generation_failure_ends_run_witness :
  query unreachable question schema db_one_row =
    Some {| trace := {| response := []; sql := []; error_reason := []; df := [] |};
            made := [CallSqlAgent question schema];
            terminal := Terminated_GenerationError |}.
Proof.
  apply (generation_failure_ends_run unreachable question schema db_one_row).
  reflexivity.
Defined.

(** *** The last result (C6) *)

(** After a success the two lists end with the statement and the frame
    of that success, and these are what the function returns. *)
Lemma last_result_of_success self q database_info db :
  exists run, query self q database_info db = Some run
    /\ (terminal run = Terminated_Success ->
        exists s d,
          get_last_successful_result (trace run) = (Some s, Some d)
          /\ empty d = false
          /\ execute_query db (length (sql (trace run)) - 1) s = Returned d).
Proof.
  destruct (sql_agent self q database_info) as [r0|] eqn:Hgen.
  2: { unfold query. rewrite Hgen. eexists. split; [reflexivity|]. discriminate. }
  pose (P := fun st : Locals =>
    (retry_count st <= max_retry self -> exit_site st = None)
    /\ (exit_site st = Some ExitSuccess ->
        exists s d l, sql (return_dict st) = l ++ [s]
          /\ (exists l', df (return_dict st) = l' ++ [d])
          /\ empty d = false
          /\ execute_query db (length l) s = Returned d)).
  destruct (query_invariant P self q database_info db r0 Hgen)
    as (st & Hq & [_ HP] & _).
  - split; [reflexivity | discriminate].
  - intros st Hlt [H0 _].
    set (inf := {| user_query := q; relevant_context := database_info |}).
    destruct (iteration_exit_success self inf db st) as [H1 H2]; [apply H0; lia|].
    split; [exact H1|]. intros Hx. destruct (H2 Hx) as (d & Hd & He & Hdf).
    exists (attempt_sql st), d, (sql (return_dict st)).
    rewrite iteration_sql, Hdf. repeat split; eauto.
  - exists (finish st). split; [exact Hq|]. simpl. intros Ht.
    destruct (exit_site st) as [[| |]|]; try discriminate.
    destruct (HP eq_refl) as (s & d & l & Hsql & [l' Hdf] & Hd & He).
    exists s, d. unfold get_last_successful_result.
    rewrite Hsql, Hdf, !last_last, length_app. simpl.
    replace (length l + 1 - 1)%nat with (length l) by lia.
    repeat split; auto. now destruct l, l'.
Qed.

(** C6, on the code: a run whose only attempt returned an empty frame
    has no success and ends as a failure, and the function returns that
    attempt's statement and its empty frame, not [(None, None)]. *)
Theorem last_result_of_failed_run :
  exists run,
    query (stubborn 1) question schema db_no_rows = Some run
    /\ terminal run = Terminated_Failure
    /\ successes (trace run) = 0%nat
    /\ get_last_successful_result (trace run)
       = (Some (py "SELECT count(*) FROM usr"), Some no_rows)
    /\ empty no_rows = true.
Proof.
  eexists. split; [vm_compute; reflexivity|]. repeat split.
Qed.

(** *** The list of frames (C10) *)

(** C10: the 'df' list of a run is, in order, the frames the connector
    returned for the statements of the 'sql' list, none for a statement
    on which it raised; so it is no longer than the 'sql' list.  It can
    hold empty frames of failed attempts: three of them in the run of
    [stubborn 3] on a table without rows. *)
Theorem df_holds_returned_frames self q database_info db :
  (exists run, query self q database_info db = Some run
     /\ df (trace run) = returned_frames db 0 (sql (trace run))
     /\ (length (df (trace run)) <= length (sql (trace run)))%nat)
  /\ (exists run, query (stubborn 3) question schema db_no_rows = Some run
        /\ terminal run = Terminated_Failure
        /\ df (trace run) = [no_rows; no_rows; no_rows]
        /\ empty no_rows = true).
Proof.
  split.
  - destruct (sql_agent self q database_info) as [r0|] eqn:Hgen.
    + destruct (query_invariant
        (fun st => df (return_dict st)
                   = returned_frames db 0 (sql (return_dict st)))
        self q database_info db r0 Hgen) as (st & Hq & HP & _).
      * reflexivity.
      * intros st _ HP.
        now rewrite iteration_df, iteration_sql, returned_frames_app, HP.
      * exists (finish st). split; [exact Hq|]. simpl.
        split; [exact HP|]. rewrite HP. apply returned_frames_length.
    + unfold query. rewrite Hgen. eexists. split; [reflexivity|].
      simpl. split; [reflexivity | lia].
  - eexists. split; [vm_compute; reflexivity|]. repeat split.
Qed.

End LoopFacts.

(** * More about the sanitizer *)

Module SanitizerMore.
Import PyStr PyStrFacts SanitizerFacts.

(** *** What is cut at a marker *)

Lemma hd_split_prefix m s : exists b, s = hd [] (split m s) ++ b.
Proof.
  destruct s as [|c s]; simp split; [now exists []|].
  destruct (find m (c :: s)) as [i|] eqn:F; simpl.
  - exists (skipn i (c :: s)). symmetry. apply (firstn_skipn i (c :: s)).
  - exists []. now rewrite app_nil_r.
Qed.

Lemma hd_split_absent m s :
  m <> [] -> contains m s = true -> find m (hd [] (split m s)) = None.
Proof.
  intros Hm H. unfold contains in H.
  destruct (find m s) as [i|] eqn:F; [|discriminate].
  destruct s as [|c s]; [now destruct m|].
  rewrite (split_found _ _ _ _ F). simpl hd. now apply find_before.
Qed.

Lemma cut_marker_absent m s : m <> [] -> contains m (cut_marker s m) = false.
Proof.
  intros Hm. unfold cut_marker. destruct (contains m s) eqn:E; [|exact E].
  apply strip_keeps_absent. unfold contains.
  now rewrite hd_split_absent.
Qed.

Lemma cut_marker_keeps_absent p s m :
  contains p s = false -> contains p (cut_marker s m) = false.
Proof.
  intros Hp. unfold cut_marker. destruct (contains m s); [|exact Hp].
  apply strip_keeps_absent. apply not_contains. apply not_contains in Hp.
  intros H. apply Hp. destruct (hd_split_prefix m s) as [b Hb].
  rewrite Hb. now apply occurs_app_l.
Qed.

Lemma cut_markers_keep_absent p ms : forall s,
  contains p s = false -> contains p (fold_left cut_marker ms s) = false.
Proof.
  induction ms as [|m ms IH]; intros s H; [exact H|].
  simpl. apply IH. now apply cut_marker_keeps_absent.
Qed.

Lemma cut_markers_absent_after ms m : forall s,
  In m ms -> m <> [] -> contains m (fold_left cut_marker ms s) = false.
Proof.
  induction ms as [|m' ms IH]; intros s Hin Hm; [destruct Hin|].
  simpl. destruct Hin as [-> | Hin].
  - apply cut_markers_keep_absent. now apply cut_marker_absent.
  - now apply IH.
Qed.

Lemma markers_not_empty m : In m completion_markers -> m <> [].
Proof.
  intros Hm. simpl in Hm.
  destruct Hm as [<- | [<- | [<- | [<- | [<- | [<- | []]]]]]]; discriminate.
Qed.

(** The sanitized text holds none of the completion markers; in
    particular it never holds a '#'. *)
Theorem output_has_no_marker x m :
  In m completion_markers -> contains m (clean_llm_response x) = false.
Proof.
  unfold clean_llm_response. revert m.
  apply collapse_keeps_markers_absent. intros m Hm.
  unfold remove_completion_artifacts.
  apply cut_markers_absent_after; [exact Hm | now apply markers_not_empty].
Qed.

Lemma output_has_no_marker_witness :
  contains (py "#") (clean_llm_response (py "SELECT * FROM #orders WHERE id = 1"))
  = false.
Proof.
  apply (output_has_no_marker (py "SELECT * FROM #orders WHERE id = 1") (py "#")).
  vm_compute. tauto.
Defined.

(** *** The shape of the output *)

Lemma fields_join ws :
  (forall w, In w ws -> ws_free w) -> ws <> [] ->
  fields (join (py " ") ws) = ws.
Proof.
  induction ws as [|w ws IH]; intros H Hne; [congruence|].
  destruct ws as [|w' ws].
  - simpl join. apply fields_word. apply H. now left.
  - change (join (py " ") (w :: w' :: ws))
      with (w ++ 32%N :: join (py " ") (w' :: ws)).
    rewrite fields_word_sep; [|apply H; now left | reflexivity].
    f_equal. apply IH; [|discriminate].
    intros x Hx. apply H. now right.
Qed.

Lemma fields_double_space a c1 c2 b :
  is_space c1 = true -> is_space c2 = true ->
  In [] (tl (fields (a ++ c1 :: c2 :: b))).
Proof.
  intros H1 H2. induction a as [|x a IH]; simpl.
  - rewrite H1, H2. now left.
  - destruct (is_space x).
    + simpl. destruct (fields (a ++ c1 :: c2 :: b)) as [|h t];
        [destruct IH | now right].
    + destruct (fields (a ++ c1 :: c2 :: b)) as [|h t]; [destruct IH | exact IH].
Qed.

Lemma in_join c ws :
  In c (join (py " ") ws) -> c = 32%N \/ exists w, In w ws /\ In c w.
Proof.
  induction ws as [|w ws IH]; intros H; [destruct H|].
  destruct ws as [|w' ws].
  - right. exists w. split; [now left | exact H].
  - change (join (py " ") (w :: w' :: ws))
      with (w ++ 32%N :: join (py " ") (w' :: ws)) in H.
    apply in_app_or in H as [H | [H | H]].
    + right. exists w. split; [now left | exact H].
    + now left.
    + destruct (IH H) as [-> | (x & Hx & Hc)]; [now left|].
      right. exists x. split; [now right | exact Hc].
Qed.

Lemma rstrip_last s c : is_space c = false -> rstrip (s ++ [c]) = s ++ [c].
Proof.
  intros Hc. induction s as [|x s IH]; simpl.
  - now rewrite Hc.
  - rewrite IH. destruct (s ++ [c]) eqn:E; [now destruct s | reflexivity].
Qed.

Lemma join_ends ws :
  ws <> [] -> (forall w, In w ws -> ws_free w /\ w <> []) ->
  exists t c, join (py " ") ws = t ++ [c] /\ is_space c = false.
Proof.
  induction ws as [|w ws IH]; intros Hne H; [congruence|].
  destruct ws as [|w' ws].
  - destruct (H w (or_introl eq_refl)) as [Hf Hw].
    destruct (exists_last Hw) as (t & c & ->).
    exists t, c. split; [reflexivity|]. apply Hf. apply in_or_app. right. now left.
  - destruct IH as (t & c & Ht & Hc); [discriminate | |].
    + intros x Hx. apply H. now right.
    + exists (w ++ 32%N :: t), c. split; [|exact Hc].
      change (join (py " ") (w :: w' :: ws))
        with (w ++ 32%N :: join (py " ") (w' :: ws)).
      rewrite Ht, <- app_assoc. reflexivity.
Qed.

Lemma strip_collapse s : strip (collapse s) = collapse s.
Proof.
  unfold collapse.
  assert (H : forall w, In w (split_ws s) -> ws_free w /\ w <> [])
    by (intros w Hw; now apply split_ws_word in Hw).
  destruct (split_ws s) as [|w ws] eqn:E; [reflexivity|].
  destruct (join_ends (w :: ws)) as (t & c & Ht & Hc); [discriminate | exact H |].
  unfold strip.
  assert (Hl : lstrip (join (py " ") (w :: ws)) = join (py " ") (w :: ws)).
  { destruct (H w (or_introl eq_refl)) as [Hf Hw].
    destruct w as [|x w]; [congruence|].
    assert (Hx : is_space x = false) by (apply Hf; now left).
    destruct ws; simpl; now rewrite Hx. }
  rewrite Hl, Ht. now apply rstrip_last.
Qed.

Lemma collapse_no_double_space s : contains (py "  ") (collapse s) = false.
Proof.
  apply not_contains. intros (a & b & Hab). unfold collapse in Hab.
  assert (H : forall w, In w (split_ws s) -> ws_free w /\ w <> [])
    by (intros w Hw; now apply split_ws_word in Hw).
  destruct (split_ws s) as [|w ws] eqn:E.
  - destruct a; discriminate.
  - pose proof (fields_double_space a 32%N 32%N b eq_refl eq_refl) as Hin.
    change (In [] (tl (fields (a ++ py "  " ++ b)))) in Hin.
    rewrite <- Hab, fields_join in Hin;
      [|intros x Hx; now apply H | discriminate].
    simpl in Hin. destruct (H [] (or_intror Hin)) as [_ Hne]. congruence.
Qed.

Lemma collapse_spaces s c :
  In c (collapse s) -> is_space c = true -> c = 32%N.
Proof.
  intros Hin Hc. unfold collapse in Hin.
  destruct (in_join _ _ Hin) as [-> | (w & Hw & Hcw)]; [reflexivity|].
  apply split_ws_word in Hw as (_ & Hf & _).
  rewrite (Hf c Hcw) in Hc. discriminate.
Qed.

(** The sanitized text is one line of words separated by single
    spaces: it has no whitespace at either end, no two spaces in a
    row, and no whitespace character other than the space. *)
Theorem output_is_one_line x :
  strip (clean_llm_response x) = clean_llm_response x
  /\ contains (py "  ") (clean_llm_response x) = false
  /\ forall c, In c (clean_llm_response x) -> is_space c = true -> c = 32%N.
Proof.
  unfold clean_llm_response. split; [apply strip_collapse|].
  split; [apply collapse_no_double_space | intros c; apply collapse_spaces].
Qed.

(** *** Blank input *)

Lemma occurs_incl p x c : occurs p x -> In c p -> In c x.
Proof.
  intros (a & b & ->) Hc. apply in_or_app. right. apply in_or_app. now left.
Qed.

Lemma blank_absent p x :
  (forall c, In c x -> is_space c = true) ->
  existsb (fun c => negb (is_space c)) p = true ->
  contains p x = false.
Proof.
  intros Hx Hp. apply not_contains. intros Hocc.
  apply existsb_exists in Hp as (c & Hc & Hns).
  rewrite (Hx c (occurs_incl _ _ _ Hocc Hc)) in Hns. discriminate.
Qed.

Lemma split_ws_blank x :
  (forall c, In c x -> is_space c = true) -> split_ws x = [].
Proof.
  unfold split_ws. induction x as [|c x IH]; intros H; [reflexivity|].
  simpl. rewrite (H c) by now left. simpl. apply IH.
  intros y Hy. apply H. now right.
Qed.

(** A text made of whitespace only, the empty text included, is
    sanitized to the empty text. *)
Theorem blank_input_gives_empty x :
  (forall c, In c x -> is_space c = true) -> clean_llm_response x = [].
Proof.
  intros H. rewrite clean_plain.
  - unfold collapse. now rewrite split_ws_blank.
  - now apply blank_absent.
  - now apply blank_absent.
  - intros m Hm. apply blank_absent; [exact H|]. simpl in Hm.
    destruct Hm as [<- | [<- | [<- | [<- | [<- | [<- | []]]]]]]; reflexivity.
Qed.

Lemma blank_input_gives_empty_witness :
  clean_llm_response [32; 10; 9; 13; 160]%N = [].
Proof.
  apply (blank_input_gives_empty [32; 10; 9; 13; 160]%N).
  intros c Hc. simpl in Hc.
  destruct Hc as [<- | [<- | [<- | [<- | [<- | []]]]]]; reflexivity.
Defined.

End SanitizerMore.

(** * More about the loop *)

Module LoopMore.
Import Text2SQLSystem LoopVocabulary LoopFacts.

#[local] Open Scope Z_scope.

#[local] Arguments py : simpl never.
#[local] Arguments firstn : simpl never.
#[local] Arguments clean_llm_response : simpl never.

Section Pass.

Variable self : System.
Variable information : Information.
Variable db : DatabaseConnector.

Abbreviation iteration := (iteration self information db).

(** A pass either hands a new response to the next pass or leaves the
    loop with the response it had. *)
Lemma iteration_response st :
  (response (return_dict (iteration st))
     = response (return_dict st) ++ [cur_response (iteration st)]
   /\ retry_count (iteration st) = retry_count st + 1)
  \/ (response (return_dict (iteration st)) = response (return_dict st)
      /\ cur_response (iteration st) = cur_response st
      /\ retry_count (iteration st) = max_retry self + 2).
Proof. iteration_cases; auto; right; repeat split; lia. Qed.

Lemma iteration_calls st :
  exists added,
    calls (iteration st) = calls st ++ added
    /\ count_calls is_sql_agent_call added = 0%nat
    /\ count_calls is_execute_call added = 1%nat
    /\ (count_calls is_reasoning_call added <= 1)%nat
    /\ (length (error_reason (return_dict (iteration st)))
        = length (error_reason (return_dict st))
          + count_calls is_fix_call added)%nat
    /\ (length added <= 3)%nat
    /\ Forall message_bounded added.
Proof.
  iteration_cases; rewrite <- ?app_assoc; eexists; (split; [reflexivity|]);
    rewrite ?length_app; cbn; repeat split; try lia;
    repeat (apply Forall_cons || apply Forall_nil); cbn;
    try exact I; apply firstn_le_length.
Qed.

Lemma iteration_reasons st t :
  In t (error_reason (return_dict (iteration st))) ->
  In t (error_reason (return_dict st))
  \/ PyStr.contains NOT_ASKING_FOR_SQL t = false.
Proof.
  iteration_cases; auto; intros H; apply in_app_or in H as [H | [<- | []]]; auto.
Qed.

Lemma iteration_exit st :
  exit_site st = None ->
  successes (return_dict st) = 0%nat ->
  (retry_count (iteration st) <= max_retry self ->
   exit_site (iteration st) = None)
  /\ (exit_site (iteration st) = Some ExitSuccess
      /\ successes (return_dict (iteration st)) = 1%nat
      \/ exit_site (iteration st) <> Some ExitSuccess
         /\ successes (return_dict (iteration st)) = 0%nat).
Proof.
  unfold successes. intros Hx H0.
  iteration_cases; rewrite ?filter_app, ?length_app, ?H0, ?Hx; cbn;
    repeat match goal with E : empty _ = _ |- _ => rewrite E end; cbn;
    (split; [try lia; auto | ]);
    first [ left; split; [reflexivity | lia]
          | right; split; [discriminate | lia] ].
Qed.

Lemma iteration_reasoning_raises st msg :
  failure_message (execute_query db (attempt_index st) (attempt_sql st)) = Some msg ->
  error_reasoning_agent self (attempt_index st) (firstn 500 msg) (attempt_sql st)
    information = None ->
  retry_count (iteration st) = max_retry self + 1 + 1
  /\ exit_site (iteration st) = Some ExitReasoningError
  /\ cur_response (iteration st) = cur_response st
  /\ response (return_dict (iteration st)) = response (return_dict st)
  /\ error_reason (return_dict (iteration st)) = error_reason (return_dict st)
  /\ calls (iteration st) =
       calls st ++ [CallExecute (attempt_sql st);
                    CallErrorReasoning (firstn 500 msg) (attempt_sql st)].
Proof.
  unfold attempt_index, attempt_sql, failure_message. intros He Hr.
  unfold_iteration.
  destruct (execute_query db _ _) as [e|d]; cbn.
  - injection He as ->. rewrite Hr. cbn. rewrite <- app_assoc. repeat split.
  - destruct (empty d); [|discriminate]. injection He as <-. cbn.
    rewrite Hr. cbn. rewrite <- app_assoc. repeat split.
Qed.

Lemma iteration_fix_raises st msg t :
  failure_message (execute_query db (attempt_index st) (attempt_sql st)) = Some msg ->
  error_reasoning_agent self (attempt_index st) (firstn 500 msg) (attempt_sql st)
    information = Some t ->
  PyStr.contains NOT_ASKING_FOR_SQL t = false ->
  error_fix_agent self (attempt_index st) t = None ->
  retry_count (iteration st) = max_retry self + 1 + 1
  /\ exit_site (iteration st) = Some ExitReasoningError
  /\ cur_response (iteration st) = cur_response st
  /\ response (return_dict (iteration st)) = response (return_dict st)
  /\ error_reason (return_dict (iteration st)) = error_reason (return_dict st) ++ [t]
  /\ calls (iteration st) =
       calls st ++ [CallExecute (attempt_sql st);
                    CallErrorReasoning (firstn 500 msg) (attempt_sql st);
                    CallErrorFix t].
Proof.
  unfold attempt_index, attempt_sql, failure_message. intros He Hr Hs Hf.
  unfold_iteration.
  destruct (execute_query db _ _) as [e|d]; cbn.
  - injection He as ->. rewrite Hr. cbn. rewrite Hs. cbn. rewrite Hf. cbn.
    rewrite <- !app_assoc. repeat split.
  - destruct (empty d); [|discriminate]. injection He as <-. cbn.
    rewrite Hr. cbn. rewrite Hs. cbn. rewrite Hf. cbn.
    rewrite <- !app_assoc. repeat split.
Qed.

Lemma iteration_calls_raised st e :
  execute_query db (attempt_index st) (attempt_sql st) = Raised e ->
  exists added,
    calls (iteration st) = calls st ++ added
    /\ Forall (fun c => match c with
                        | CallErrorReasoning m _ => m = firstn 500 e
                        | _ => True
                        end) added.
Proof.
  unfold attempt_index, attempt_sql. intros He.
  unfold_iteration. rewrite He. cbn.
  iteration_cases; rewrite <- ?app_assoc; eexists; (split; [reflexivity|]);
    repeat (apply Forall_cons || apply Forall_nil); cbn; auto.
Qed.

End Pass.

#[local] Arguments Text2SQLSystem.iteration : simpl never.

(** *** The budget *)

Lemma run_attempts_bound self q database_info db :
  exists run, query self q database_info db = Some run
    /\ Z.of_nat (length (sql (trace run))) <= Z.max 0 (max_retry self).
Proof.
  destruct (sql_agent self q database_info) as [r0|] eqn:Hgen.
  - destruct (query_invariant
      (fun st => (retry_count st <= max_retry self ->
                  Z.of_nat (length (sql (return_dict st))) <= retry_count st)
                 /\ Z.of_nat (length (sql (return_dict st)))
                    <= Z.max 0 (max_retry self))
      self q database_info db r0 Hgen) as (st & Hq & [_ HP] & _).
    + simpl. lia.
    + intros st Hlt [H _]. rewrite iteration_sql, length_app. cbn [length].
      destruct (iteration_retry_count self
        {| user_query := q; relevant_context := database_info |} db st)
        as [-> | ->]; lia.
    + now exists (finish st).
  - unfold query. rewrite Hgen. eexists. split; [reflexivity|]. simpl. lia.
Qed.

(** A run makes at most [max_retry] attempts, none when [max_retry] is
    negative. *)
Theorem attempts_within_budget self q database_info db :
  exists run, query self q database_info db = Some run
    /\ Z.of_nat (length (sql (trace run))) <= Z.max 0 (max_retry self).
Proof. apply run_attempts_bound. Qed.

(** With [max_retry <= 0] the generated SQL is never executed: the run
    is the generation call and nothing else, and it counts as a
    failure whatever the database would have answered. *)
Theorem no_budget_no_attempt self q database_info db r0 :
  max_retry self <= 0 ->
  sql_agent self q database_info = Some r0 ->
  query self q database_info db =
    Some {| trace := {| response := [r0]; sql := [];
                        error_reason := []; df := [] |};
            made := [CallSqlAgent q database_info];
            terminal := Terminated_Failure |}.
Proof.
  intros Hmax Hgen. unfold query. rewrite Hgen.
  rewrite while_loop_done by (simpl; lia). reflexivity.
Qed.

Lemma no_budget_no_attempt_witness :
  query (stubborn 0) question schema db_one_row =
    Some {| trace := {| response :=
                          [{| generated_sql := py "```sql SELECT count(*) FROM usr```" |}];
                        sql := []; error_reason := []; df := [] |};
            made := [CallSqlAgent question schema];
            terminal := Terminated_Failure |}.
Proof.
  apply (no_budget_no_attempt (stubborn 0) question schema db_one_row).
  - simpl. lia.
  - reflexivity.
Defined.

(** The calls of a run: one call of the SQL agent, one execution per
    attempt, at most one reasoning call per attempt, one fix call per
    recorded reason; at most three calls per attempt after the first
    one. *)
Theorem calls_per_attempt self q database_info db :
  exists run, query self q database_info db = Some run
    /\ count_calls is_sql_agent_call (made run) = 1%nat
    /\ count_calls is_execute_call (made run) = length (sql (trace run))
    /\ (count_calls is_reasoning_call (made run) <= length (sql (trace run)))%nat
    /\ count_calls is_fix_call (made run) = length (error_reason (trace run))
    /\ (length (made run) <= 1 + 3 * length (sql (trace run)))%nat.
Proof.
  destruct (sql_agent self q database_info) as [r0|] eqn:Hgen.
  - destruct (query_invariant
      (fun st =>
         count_calls is_sql_agent_call (calls st) = 1%nat
         /\ count_calls is_execute_call (calls st)
            = length (sql (return_dict st))
         /\ (count_calls is_reasoning_call (calls st)
             <= length (sql (return_dict st)))%nat
         /\ count_calls is_fix_call (calls st)
            = length (error_reason (return_dict st))
         /\ (length (calls st) <= 1 + 3 * length (sql (return_dict st)))%nat)
      self q database_info db r0 Hgen) as (st & Hq & HP & _).
    + cbn. repeat split; lia.
    + intros st _ (H1 & H2 & H3 & H4 & H5).
      destruct (iteration_calls self
        {| user_query := q; relevant_context := database_info |} db st)
        as (added & -> & A1 & A2 & A3 & A4 & A5 & _).
      rewrite iteration_sql, A4. unfold count_calls in *.
      rewrite !filter_app, !length_app. cbn [length]. repeat split; lia.
    + now exists (finish st).
  - unfold query. rewrite Hgen. eexists. split; [reflexivity|].
    cbn. repeat split; lia.
Qed.

(** The error message handed to the reasoning agent is never longer
    than 500 characters. *)
Theorem reasoning_messages_bounded self q database_info db :
  exists run, query self q database_info db = Some run
    /\ Forall message_bounded (made run).
Proof.
  destruct (sql_agent self q database_info) as [r0|] eqn:Hgen.
  - destruct (query_invariant (fun st => Forall message_bounded (calls st))
      self q database_info db r0 Hgen) as (st & Hq & HP & _).
    + repeat constructor.
    + intros st _ H.
      destruct (iteration_calls self
        {| user_query := q; relevant_context := database_info |} db st)
        as (added & -> & _ & _ & _ & _ & _ & A).
      apply Forall_app. now split.
    + now exists (finish st).
  - unfold query. rewrite Hgen. eexists. split; [reflexivity|].
    repeat constructor.
Qed.

(** *** What the returned dict tells *)

(** Every statement of the 'sql' list is the sanitized text of the
    response at the same position of the 'response' list. *)
Theorem statements_follow_responses self q database_info db :
  exists run, query self q database_info db = Some run
    /\ sql (trace run)
       = map statement_of (firstn (length (sql (trace run))) (response (trace run))).
Proof.
  destruct (sql_agent self q database_info) as [r0|] eqn:Hgen.
  - pose (P := fun st : Locals =>
      exists pre,
        response (return_dict st) = pre ++ [cur_response st]
        /\ (retry_count st <= max_retry self ->
            sql (return_dict st) = map statement_of pre)
        /\ sql (return_dict st)
           = map statement_of
               (firstn (length (sql (return_dict st))) (response (return_dict st)))).
    destruct (query_invariant P self q database_info db r0 Hgen)
      as (st & Hq & (pre & _ & _ & HP) & _).
    + exists []. repeat split.
    + intros st Hlt (pre & Hresp & Hsql & _).
      set (inf := {| user_query := q; relevant_context := database_info |}).
      specialize (Hsql ltac:(lia)).
      assert (Hnew : sql (return_dict (iteration self inf db st))
                     = map statement_of (pre ++ [cur_response st])).
      { rewrite iteration_sql, Hsql, map_app. reflexivity. }
      assert (Hlen : length (sql (return_dict (iteration self inf db st)))
                     = length (pre ++ [cur_response st]))
        by now rewrite Hnew, length_map.
      destruct (iteration_response self inf db st)
        as [[Hr Hrc] | (Hr & Hc & Hrc)].
      * exists (pre ++ [cur_response st]). rewrite Hr, Hresp. repeat split.
        -- intros _. exact Hnew.
        -- rewrite Hlen, firstn_app, firstn_all, Nat.sub_diag. simpl.
           now rewrite app_nil_r.
      * exists pre. rewrite Hr, Hc, Hresp. repeat split.
        -- intros; lia.
        -- now rewrite Hlen, firstn_all.
    + now exists (finish st).
  - unfold query. rewrite Hgen. eexists. split; reflexivity.
Qed.

Lemma run_success_trace self q database_info db :
  exists run, query self q database_info db = Some run
    /\ (terminal run = Terminated_Success <-> successes (trace run) = 1%nat)
    /\ (terminal run <> Terminated_Success <-> successes (trace run) = 0%nat).
Proof.
  destruct (sql_agent self q database_info) as [r0|] eqn:Hgen.
  - pose (P := fun st : Locals =>
      (retry_count st <= max_retry self ->
       exit_site st = None /\ successes (return_dict st) = 0%nat)
      /\ (exit_site st = Some ExitSuccess /\ successes (return_dict st) = 1%nat
          \/ exit_site st <> Some ExitSuccess
             /\ successes (return_dict st) = 0%nat)).
    destruct (query_invariant P self q database_info db r0 Hgen)
      as (st & Hq & [_ HP] & _).
    + split; [split; reflexivity | right; split; [discriminate | reflexivity]].
    + intros st Hlt [H _]. destruct (H ltac:(lia)) as [Hx H0].
      destruct (iteration_exit self
        {| user_query := q; relevant_context := database_info |} db st Hx H0)
        as [H1 H2].
      split; [|exact H2]. intros Hle. split; [now apply H1|].
      destruct H2 as [[H2 _] | [_ H2]]; [|exact H2].
      rewrite (H1 Hle) in H2. discriminate.
    + exists (finish st). split; [exact Hq|]. simpl.
      destruct HP as [[-> ->] | [Hne ->]].
      * simpl. repeat split; intros; congruence.
      * destruct (exit_site st) as [[| |]|]; simpl;
          repeat split; intros; congruence.
  - unfold query. rewrite Hgen. eexists. split; [reflexivity|].
    cbn. repeat split; intros; congruence.
Qed.

(** A run ended as a success exactly when its 'df' list holds a frame
    that is not empty. *)
Theorem success_shows_in_trace self q database_info db :
  exists run, query self q database_info db = Some run
    /\ (terminal run = Terminated_Success <-> successes (trace run) = 1%nat)
    /\ (terminal run <> Terminated_Success <-> successes (trace run) = 0%nat).
Proof. apply run_success_trace. Qed.

(** No reason of the 'error_reason' list holds the sentinel
    'NOT ASKING FOR SQL'. *)
Theorem reasons_hold_no_sentinel self q database_info db :
  exists run, query self q database_info db = Some run
    /\ Forall (fun t => PyStr.contains NOT_ASKING_FOR_SQL t = false)
         (error_reason (trace run)).
Proof.
  destruct (sql_agent self q database_info) as [r0|] eqn:Hgen.
  - destruct (query_invariant
      (fun st => Forall (fun t => PyStr.contains NOT_ASKING_FOR_SQL t = false)
                   (error_reason (return_dict st)))
      self q database_info db r0 Hgen) as (st & Hq & HP & _).
    + constructor.
    + intros st _ H. apply Forall_forall. intros t Ht.
      apply iteration_reasons in Ht as [Ht | Ht]; [|exact Ht].
      rewrite Forall_forall in H. now apply H.
    + now exists (finish st).
  - unfold query. rewrite Hgen. eexists. split; [reflexivity|]. constructor.
Qed.

(** *** Agents that raise in the loop *)

(** A pass whose execution fails and whose reasoning agent raises is
    the last one: the loop returns right after it as a failure, with
    no reason recorded and no fix asked for. *)
Theorem reasoning_failure_ends_loop self information db st fuel msg :
  retry_count st < max_retry self ->
  failure_message (execute_query db (attempt_index st) (attempt_sql st)) = Some msg ->
  error_reasoning_agent self (attempt_index st) (firstn 500 msg) (attempt_sql st)
    information = None ->
  exists st',
    while_loop self information db (S fuel) st = Some st'
    /\ terminal (finish st') = Terminated_Failure
    /\ sql (return_dict st') = sql (return_dict st) ++ [attempt_sql st]
    /\ error_reason (return_dict st') = error_reason (return_dict st)
    /\ response (return_dict st') = response (return_dict st)
    /\ calls st' =
         calls st ++ [CallExecute (attempt_sql st);
                      CallErrorReasoning (firstn 500 msg) (attempt_sql st)].
Proof.
  intros Hlt Hmsg Hr.
  destruct (iteration_reasoning_raises self information db st msg Hmsg Hr)
    as (Hrc & Hexit & _ & Hresp & Herr & Hcalls).
  exists (Text2SQLSystem.iteration self information db st). repeat split; auto.
  - rewrite while_loop_step by exact Hlt. apply while_loop_done. lia.
  - unfold finish. cbn [terminal]. now rewrite Hexit.
  - apply iteration_sql.
Qed.

Lemma reasoning_failure_ends_loop_witness :
  exists st',
    while_loop silent_reasoner
      {| user_query := question; relevant_context := schema |} db_raising 3
      (initial {| generated_sql := py "SELECT 1 FROM nowhere" |} question schema)
    = Some st'
    /\ terminal (finish st') = Terminated_Failure
    /\ sql (return_dict st') = [py "SELECT 1 FROM nowhere"]
    /\ error_reason (return_dict st') = []
    /\ response (return_dict st') = [{| generated_sql := py "SELECT 1 FROM nowhere" |}]
    /\ calls st' =
         [CallSqlAgent question schema;
          CallExecute (py "SELECT 1 FROM nowhere");
          CallErrorReasoning (py "no such table: usr") (py "SELECT 1 FROM nowhere")].
Proof.
  apply (reasoning_failure_ends_loop silent_reasoner
           {| user_query := question; relevant_context := schema |} db_raising
           (initial {| generated_sql := py "SELECT 1 FROM nowhere" |} question schema)
           2 (py "no such table: usr")).
  - simpl. lia.
  - reflexivity.
  - reflexivity.
Defined.

(** A pass whose fix agent raises is the last one too, as a failure;
    its reason stays in the 'error_reason' list, and the 'response'
    list gets nothing. *)
Theorem fix_failure_ends_loop self information db st fuel msg t :
  retry_count st < max_retry self ->
  failure_message (execute_query db (attempt_index st) (attempt_sql st)) = Some msg ->
  error_reasoning_agent self (attempt_index st) (firstn 500 msg) (attempt_sql st)
    information = Some t ->
  PyStr.contains NOT_ASKING_FOR_SQL t = false ->
  error_fix_agent self (attempt_index st) t = None ->
  exists st',
    while_loop self information db (S fuel) st = Some st'
    /\ terminal (finish st') = Terminated_Failure
    /\ sql (return_dict st') = sql (return_dict st) ++ [attempt_sql st]
    /\ error_reason (return_dict st') = error_reason (return_dict st) ++ [t]
    /\ response (return_dict st') = response (return_dict st)
    /\ calls st' =
         calls st ++ [CallExecute (attempt_sql st);
                      CallErrorReasoning (firstn 500 msg) (attempt_sql st);
                      CallErrorFix t].
Proof.
  intros Hlt Hmsg Hr Hs Hf.
  destruct (iteration_fix_raises self information db st msg t Hmsg Hr Hs Hf)
    as (Hrc & Hexit & _ & Hresp & Herr & Hcalls).
  exists (Text2SQLSystem.iteration self information db st). repeat split; auto.
  - rewrite while_loop_step by exact Hlt. apply while_loop_done. lia.
  - unfold finish. cbn [terminal]. now rewrite Hexit.
  - apply iteration_sql.
Qed.

Lemma fix_failure_ends_loop_witness :
  exists st',
    while_loop silent_fixer
      {| user_query := question; relevant_context := schema |} db_no_rows 3
      (initial {| generated_sql := py "SELECT 1 FROM nowhere" |} question schema)
    = Some st'
    /\ terminal (finish st') = Terminated_Failure
    /\ sql (return_dict st') = [py "SELECT 1 FROM nowhere"]
    /\ error_reason (return_dict st') = [py "Use an existing table."]
    /\ response (return_dict st') = [{| generated_sql := py "SELECT 1 FROM nowhere" |}]
    /\ calls st' =
         [CallSqlAgent question schema;
          CallExecute (py "SELECT 1 FROM nowhere");
          CallErrorReasoning (py "Query returned empty result set")
            (py "SELECT 1 FROM nowhere");
          CallErrorFix (py "Use an existing table.")].
Proof.
  apply (fix_failure_ends_loop silent_fixer
           {| user_query := question; relevant_context := schema |} db_no_rows
           (initial {| generated_sql := py "SELECT 1 FROM nowhere" |} question schema)
           2 (py "Query returned empty result set") (py "Use an existing table.")).
  - simpl. lia.
  - reflexivity.
  - reflexivity.
  - vm_compute. reflexivity.
  - reflexivity.
Defined.

End LoopMore.

(** * Facts about the database connector *)

Module ConnectorFacts.
Import Text2SQLSystem LoopVocabulary Connector.

Lemma text_eqb_eq a : forall b, text_eqb a b = true <-> a = b.
Proof.
  induction a as [|x a IH]; intros [|y b]; simpl; split; try congruence;
    try discriminate.
  - intros H. apply andb_true_iff in H as [Hx Hab].
    apply N.eqb_eq in Hx. apply IH in Hab. congruence.
  - intros [= -> ->]. rewrite N.eqb_refl. now apply IH.
Qed.

Lemma text_eqb_neq a b : text_eqb a b = false <-> a <> b.
Proof.
  rewrite <- text_eqb_eq. destruct (text_eqb a b); split; congruence.
Qed.

(** The keys of [SUPPORTED_DATABASES] are the three names of the
    [if]/[elif] chain. *)
Lemma lookup_supported db_type :
  (supported db_type ->
   exists cfg, lookup db_type SUPPORTED_DATABASES = Some cfg)
  /\ (~ supported db_type -> lookup db_type SUPPORTED_DATABASES = None).
Proof.
  unfold supported. split.
  - intros [-> | [-> | ->]]; eexists; reflexivity.
  - intros H. simpl.
    destruct (text_eqb db_type (py "mysql")) eqn:E1;
      [apply text_eqb_eq in E1; tauto|].
    destruct (text_eqb db_type (py "postgresql")) eqn:E2;
      [apply text_eqb_eq in E2; tauto|].
    destruct (text_eqb db_type (py "mssql")) eqn:E3;
      [apply text_eqb_eq in E3; tauto|].
    reflexivity.
Qed.

Lemma returned_string_supported db_type host port u p d ssl s :
  create_connection_string db_type host port u p d ssl = Return s ->
  supported db_type.
Proof.
  unfold create_connection_string, supported.
  destruct (lookup db_type SUPPORTED_DATABASES); [|discriminate].
  destruct (text_eqb db_type (py "mysql")) eqn:E1;
    [apply text_eqb_eq in E1; auto|].
  destruct (text_eqb db_type (py "postgresql")) eqn:E2;
    [apply text_eqb_eq in E2; auto|].
  destruct (text_eqb db_type (py "mssql")) eqn:E3;
    [apply text_eqb_eq in E3; auto|].
  discriminate.
Qed.

(** *** The connection string *)

(** The tests of [create_connection_string] on closed texts. *)
Ltac settle_tests :=
  repeat match goal with
    | |- context [lookup ?k SUPPORTED_DATABASES] =>
        let v := eval cbv in (lookup k SUPPORTED_DATABASES) in
        change (lookup k SUPPORTED_DATABASES) with v
    | |- context [text_eqb ?a ?b] =>
        let v := eval vm_compute in (text_eqb a b) in
        match v with
        | true => change (text_eqb a b) with true
        | false => change (text_eqb a b) with false
        end
    end;
  cbv beta iota zeta; cbn [driver negb].

(** Exactly 'mysql', 'postgresql' and 'mssql' give a connection string,
    and it begins with the driver of the type, the credentials, the
    host and the port; every other type raises the ValueError that
    names it. *)
Theorem connection_string_by_type db_type host port u p d ssl :
  (supported db_type ->
   exists cfg rest,
     lookup db_type SUPPORTED_DATABASES = Some cfg
     /\ create_connection_string db_type host port u p d ssl
        = Return (driver cfg ++ py "://" ++ u ++ py ":" ++ p ++ py "@"
                    ++ host ++ py ":" ++ str_of_int port ++ rest))
  /\ (~ supported db_type ->
      create_connection_string db_type host port u p d ssl
      = Throw (py "Unsupported database type: " ++ db_type)).
Proof.
  split.
  - intros Hs. destruct (proj1 (lookup_supported db_type) Hs) as [cfg Hcfg].
    exists cfg. unfold create_connection_string. rewrite Hcfg.
    destruct Hs as [-> | [-> | ->]]; settle_tests; destruct (is_nil d);
      repeat match goal with
        | |- context [if ?b then _ else _] => destruct b
        end;
      eexists; (split; [reflexivity|]); f_equal;
      rewrite <- ?app_assoc; repeat (f_equal; []);
      first [ reflexivity | symmetry; apply app_nil_r ].
  - intros H. unfold create_connection_string.
    now rewrite (proj2 (lookup_supported db_type) H).
Qed.

Lemma connection_string_by_type_witness :
  (exists cfg rest,
     lookup (py "mysql") SUPPORTED_DATABASES = Some cfg
     /\ create_connection_string (py "mysql") (py "db.local") 3306
          (py "app") (py "s3cret") (py "shop") default_ssl
        = Return (driver cfg ++ py "://app:s3cret@db.local:3306" ++ rest))
  /\ create_connection_string (py "oracle") (py "db.local") 1521
       (py "app") (py "s3cret") (py "shop") default_ssl
     = Throw (py "Unsupported database type: oracle").
Proof.
  split.
  - refine (proj1 (connection_string_by_type (py "mysql") (py "db.local") 3306
                     (py "app") (py "s3cret") (py "shop") default_ssl) _).
    left. reflexivity.
  - refine (proj2 (connection_string_by_type (py "oracle") (py "db.local") 1521
                     (py "app") (py "s3cret") (py "shop") default_ssl) _).
    intros [H | [H | H]]; discriminate H.
Defined.

(** The credentials go into the string as they are: a password that
    holds '@' cannot be told from a host that holds it. *)
Theorem credentials_not_escaped db_type host port u p x d ssl :
  create_connection_string db_type host port u (p ++ py "@" ++ x) d ssl
  = create_connection_string db_type (x ++ py "@" ++ host) port u p d ssl.
Proof.
  unfold create_connection_string.
  destruct (lookup db_type SUPPORTED_DATABASES) as [cfg|]; [|reflexivity].
  replace (driver cfg ++ py "://" ++ u ++ py ":" ++ (p ++ py "@" ++ x)
             ++ py "@" ++ host ++ py ":" ++ str_of_int port)
    with (driver cfg ++ py "://" ++ u ++ py ":" ++ p
             ++ py "@" ++ (x ++ py "@" ++ host) ++ py ":" ++ str_of_int port)
    by (rewrite <- !app_assoc; reflexivity).
  reflexivity.
Qed.

(** With the default of [ssl], 'preferred', the string of a postgresql
    connection ends with 'sslmode=preferred', which is none of the
    [ssl_options] the class lists for postgresql; the string of a
    mysql connection gets no parameter and the one of an mssql
    connection gets 'Encrypt=no'. *)
Theorem default_ssl_by_type host port u p d :
  let base := u ++ py ":" ++ p ++ py "@" ++ host ++ py ":" ++ str_of_int port
                ++ (if is_nil d then [] else py "/" ++ d) in
  create_connection_string (py "postgresql") host port u p d default_ssl
    = Return (py "postgresql+psycopg2://" ++ base ++ py "?sslmode=preferred")
  /\ (forall cfg, lookup (py "postgresql") SUPPORTED_DATABASES = Some cfg ->
      existsb (text_eqb default_ssl) (ssl_options cfg) = false)
  /\ create_connection_string (py "mysql") host port u p d default_ssl
     = Return (py "mysql+mysqlconnector://" ++ base)
  /\ create_connection_string (py "mssql") host port u p d default_ssl
     = Return (py "mssql+pyodbc://" ++ base
                 ++ py "?driver=ODBC+Driver+17+for+SQL+Server&Encrypt=no").
Proof.
  intros base. subst base. unfold create_connection_string, default_ssl.
  repeat split; try (intros cfg [= <-]; reflexivity);
    settle_tests; destruct (is_nil d);
    rewrite <- ?app_assoc, ?app_nil_r; reflexivity.
Qed.

(** *** Connecting and disconnecting *)

Lemma connect_cases sa now self db_type host port u p d ssl :
  let r := connect sa now self db_type host port u p d ssl in
  (snd r = true
   /\ is_connected (fst r) = true
   /\ supported db_type
   /\ (exists e, engine (fst r) = Some e)
   /\ connection_info (fst r)
      = Some {| info_db_type := db_type; info_host := host; info_port := port;
                info_username := u; info_database := d; info_ssl := ssl;
                connected_at := now |}
   /\ disposed (fst r) = disposed self)
  \/ (snd r = false
      /\ is_connected (fst r) = false
      /\ connection_info (fst r) = connection_info self
      /\ disposed (fst r) = disposed self).
Proof.
  unfold connect.
  destruct (create_connection_string db_type host port u p d ssl) as [s|e] eqn:E;
    [|right; repeat split].
  destruct (create_engine sa s) as [e|]; [|right; repeat split].
  destruct (select_one sa e); [left | right; repeat split].
  simpl. repeat split; eauto using returned_string_supported.
Qed.

Lemma run_snoc ops op : run (ops ++ [op]) = step (run ops) op.
Proof. unfold run. now rewrite fold_left_app. Qed.

(** Whatever calls of [connect] and [disconnect] were made on a new
    connector: if it is connected, it holds an engine and the
    description of a connection of a supported type, so that
    [execute_query] passes the query on to [pd.read_sql]; if it is not,
    [execute_query] raises 'Not connected to database. Call connect()
    first.'. *)
Theorem connected_has_engine ops sa i query :
  (is_connected (run ops) = true /\
   exists e info,
     engine (run ops) = Some e
     /\ connection_info (run ops) = Some info
     /\ supported (info_db_type info)
     /\ execute_query sa (run ops) i query = read_sql sa e i query)
  \/ (is_connected (run ops) = false
      /\ execute_query sa (run ops) i query = Raised not_connected_message).
Proof.
  assert (H : is_connected (run ops) = true ->
              exists e info, engine (run ops) = Some e
                /\ connection_info (run ops) = Some info
                /\ supported (info_db_type info)).
  { induction ops as [|op ops IH] using rev_ind; [discriminate|].
    rewrite run_snoc. destruct op as [sa' now ty h po u p d ssl|]; simpl.
    - destruct (connect_cases sa' now (run ops) ty h po u p d ssl)
        as [(_ & _ & Hs & [e He] & Hi & _) | (_ & Hc & _)].
      + intros _. exists e. eexists. rewrite He, Hi. repeat split. exact Hs.
      + rewrite Hc. discriminate.
    - discriminate. }
  unfold execute_query. destruct (is_connected (run ops)) eqn:E.
  - left. split; [reflexivity|].
    destruct (H eq_refl) as (e & info & He & Hi & Hs).
    exists e, info. rewrite He. repeat split; assumption.
  - right. split; reflexivity.
Qed.

(** A call of [connect] that returns [False] leaves the connector not
    connected, also when it was connected before, with the
    [connection_info] it had: [execute_query] then raises 'Not
    connected', and the stale description remains. *)
Theorem failed_connect_disconnects sa now self db_type host port u p d ssl :
  snd (connect sa now self db_type host port u p d ssl) = false ->
  let self' := fst (connect sa now self db_type host port u p d ssl) in
  is_connected self' = false
  /\ connection_info self' = connection_info self
  /\ forall sa' i query,
       execute_query sa' self' i query = Raised not_connected_message.
Proof.
  intros Hf self'. subst self'.
  destruct (connect_cases sa now self db_type host port u p d ssl)
    as [(Ht & _) | (_ & Hc & Hi & _)]; [congruence|].
  repeat split; auto. intros sa' i query. unfold execute_query. now rewrite Hc.
Qed.

Lemma failed_connect_disconnects_witness :
  let connected :=
    fst (connect friendly 1 init (py "mysql") (py "db.local") 3306
           (py "app") (py "s3cret") (py "shop") default_ssl) in
  let self' :=
    fst (connect friendly 2 connected (py "oracle") (py "db.local") 1521
           (py "app") (py "s3cret") (py "shop") default_ssl) in
  is_connected connected = true
  /\ is_connected self' = false
  /\ connection_info self' = connection_info connected
  /\ forall sa' i query,
       execute_query sa' self' i query = Raised not_connected_message.
Proof.
  intros connected self'. split; [reflexivity|].
  apply (failed_connect_disconnects friendly 2 connected (py "oracle")
           (py "db.local") 1521 (py "app") (py "s3cret") (py "shop") default_ssl).
  reflexivity.
Defined.

(** Engines are disposed by [disconnect] only, one per call at most:
    [connect] replaces the engine it finds without disposing it. *)
Theorem dispose_only_on_disconnect ops :
  (length (disposed (run ops)) <= length (filter is_disconnect ops))%nat.
Proof.
  induction ops as [|op ops IH] using rev_ind; [simpl; lia|].
  rewrite run_snoc, filter_app, length_app.
  destruct op as [sa now ty h po u p d ssl|]; simpl.
  - destruct (connect_cases sa now (run ops) ty h po u p d ssl)
      as [(_ & _ & _ & _ & _ & ->) | (_ & _ & _ & ->)]; lia.
  - destruct (engine (run ops)); rewrite ?length_app; simpl; lia.
Qed.

(** *** The loop on a connector that is not connected *)

(** [query] does not look at [is_connected]: run on a connector that
    is not connected, every attempt raises 'Not connected', no frame
    is recorded, the run does not succeed, and each reasoning call is
    about that message. *)
Theorem query_on_disconnected sa conn self q database_info :
  is_connected conn = false ->
  exists run,
    query self q database_info (as_db_connector sa conn) = Some run
    /\ df (trace run) = []
    /\ terminal run <> Terminated_Success
    /\ Forall (fun c => match c with
                        | CallErrorReasoning m _ => m = not_connected_message
                        | _ => True
                        end) (made run).
Proof.
  intros Hc.
  assert (Hraise : forall i s,
    Text2SQLSystem.execute_query (as_db_connector sa conn) i s
    = Raised not_connected_message).
  { intros i s. simpl. unfold execute_query. now rewrite Hc. }
  destruct (sql_agent self q database_info) as [r0|] eqn:Hgen.
  - pose (P := fun st : Locals =>
      (retry_count st <= max_retry self -> exit_site st = None)%Z
      /\ exit_site st <> Some ExitSuccess
      /\ df (return_dict st) = []
      /\ Forall (fun c => match c with
                          | CallErrorReasoning m _ => m = not_connected_message
                          | _ => True
                          end) (calls st)).
    destruct (LoopFacts.query_invariant P self q database_info
                (as_db_connector sa conn) r0 Hgen)
      as (st & Hq & (_ & Hx & Hdf & Hcalls) & _).
    + repeat split; [discriminate | repeat constructor].
    + intros st Hlt (H0 & _ & Hdf & Hcalls).
      set (inf := {| user_query := q; relevant_context := database_info |}).
      destruct (LoopFacts.iteration_exit_success self inf
                  (as_db_connector sa conn) st) as [H1 H2]; [apply H0; lia|].
      destruct (LoopMore.iteration_calls_raised self inf
                  (as_db_connector sa conn) st _ (Hraise _ _))
        as (added & Hadd & Hall).
      repeat split.
      * exact H1.
      * intros Hs. destruct (H2 Hs) as (d & _ & He & _).
        rewrite Hraise in He. discriminate.
      * rewrite LoopFacts.iteration_df, Hraise, Hdf. reflexivity.
      * rewrite Hadd. apply Forall_app. split; [exact Hcalls | exact Hall].
    + exists (finish st). repeat split; auto. simpl.
      destruct (exit_site st) as [[| |]|]; simpl; congruence.
  - unfold query. rewrite Hgen. eexists. split; [reflexivity|].
    repeat split; [discriminate | repeat constructor].
Qed.

Lemma query_on_disconnected_witness :
  exists run,
    query (stubborn 3) question schema (as_db_connector friendly init) = Some run
    /\ df (trace run) = []
    /\ terminal run <> Terminated_Success
    /\ Forall (fun c => match c with
                        | CallErrorReasoning m _ => m = not_connected_message
                        | _ => True
                        end) (made run).
Proof.
  apply (query_on_disconnected friendly init (stubborn 3) question schema).
  reflexivity.
Defined.

End ConnectorFacts.

(** * Facts about construction and the chat front end *)

Module FrontendFacts.
Import Text2SQLSystem LoopVocabulary Connector Frontend.

(** *** The API key *)

(** [__init__] reads the environment only when no key is passed.  With
    no key passed and the variable unset or empty it raises the
    ValueError, whatever [dspy] would do; a key that is passed, the
    empty one included, goes to [dspy] unchecked; and a system that is
    returned has the [max_retry] that was passed. *)
Theorem api_key_handling pf sql_model reasoning_model fix_model n :
  ((OPENAI_API_KEY pf = None \/ OPENAI_API_KEY pf = Some []) ->
   new_system pf sql_model reasoning_model fix_model n None
   = Throw api_key_required)
  /\ (forall k env,
        new_system pf sql_model reasoning_model fix_model n (Some k)
        = new_system {| OPENAI_API_KEY := env; dspy_agents := dspy_agents pf |}
            sql_model reasoning_model fix_model n (Some k))
  /\ (forall k sys,
        new_system pf sql_model reasoning_model fix_model n k = Return sys ->
        max_retry sys = n).
Proof.
  unfold new_system, handle_api_key. repeat split.
  - intros [-> | ->]; reflexivity.
  - intros k sys.
    destruct k as [k|]; [|destruct (OPENAI_API_KEY pf) as [[|c k]|]];
      try discriminate;
      destruct (dspy_agents pf _ _ _ _); try discriminate;
      now intros [= <-].
Qed.

Lemma api_key_handling_witness :
  new_system no_key (py "gpt-4o-mini") (py "gpt-4o") (py "gpt-4o-mini") 3 None
  = Throw api_key_required
  /\ exists sys,
       new_system with_key (py "gpt-4o-mini") (py "gpt-4o") (py "gpt-4o-mini")
         3 None = Return sys
       /\ max_retry sys = 3%Z.
Proof.
  split.
  - apply (proj1 (api_key_handling no_key (py "gpt-4o-mini") (py "gpt-4o")
                    (py "gpt-4o-mini") 3)).
    left. reflexivity.
  - eexists. split; [reflexivity|].
    apply (proj2 (proj2 (api_key_handling with_key (py "gpt-4o-mini")
                           (py "gpt-4o") (py "gpt-4o-mini") 3)) None).
    reflexivity.
Defined.

(** *** One question *)

Lemma reply_to_not_user run now : msg_type (reply_to run now) <> user.
Proof.
  unfold reply_to.
  destruct (get_last_successful_result (trace run)) as [[[|c s]|] [d|]];
    discriminate.
Qed.

Lemma process_appends pf t1 t2 q ss :
  exists reply,
    chat_history (process_user_query pf t1 t2 q ss)
    = chat_history ss
      ++ [{| msg_type := user; content := Plain q; timestamp := t1 |}; reply]
    /\ msg_type reply <> user
    /\ timestamp reply = t2.
Proof.
  unfold process_user_query. cbn [text2sql_system append_message].
  destruct (text2sql_system ss) as [sys|].
  - cbn. destruct (query sys q (schema_info ss) (db_connector ss)) as [run|];
      cbn; rewrite <- app_assoc; eexists; (split; [reflexivity|]);
      split; try discriminate; try apply reply_to_not_user;
      unfold reply_to;
      try (destruct (get_last_successful_result (trace run))
             as [[[|c s]|] [d|]]); reflexivity.
  - destruct (new_system pf _ _ _ 3 None) as [sys|e]; cbn.
    + destruct (query sys q (schema_info ss) (db_connector ss)) as [run|];
        cbn; rewrite <- app_assoc; eexists; (split; [reflexivity|]);
        split; try discriminate; try apply reply_to_not_user;
        unfold reply_to;
        try (destruct (get_last_successful_result (trace run))
               as [[[|c s]|] [d|]]); reflexivity.
    + rewrite <- app_assoc. eexists. split; [reflexivity|].
      split; [discriminate | reflexivity].
Qed.

(** Without a system in the session and without API key, a question is
    answered by the message of type 'error' that carries the
    ValueError, the session still has no system, and neither the agents
    nor the database are called. *)
Theorem question_without_key pf t1 t2 q ss :
  text2sql_system ss = None ->
  (OPENAI_API_KEY pf = None \/ OPENAI_API_KEY pf = Some []) ->
  let ss' := process_user_query pf t1 t2 q ss in
  chat_history ss'
  = chat_history ss
    ++ [{| msg_type := user; content := Plain q; timestamp := t1 |};
        {| msg_type := error;
           content := Plain (py "Failed to initialize AI system: "
                               ++ api_key_required);
           timestamp := t2 |}]
  /\ text2sql_system ss' = None.
Proof.
  intros Hsys Hkey. unfold process_user_query.
  cbn [text2sql_system append_message]. rewrite Hsys.
  unfold new_system, handle_api_key.
  destruct Hkey as [-> | ->]; cbn; rewrite <- app_assoc; split; auto.
Qed.

Lemma question_without_key_witness :
  let ss' := process_user_query no_key 10 11 question (fresh_session db_one_row) in
  chat_history ss'
  = [{| msg_type := user; content := Plain question; timestamp := 10 |};
     {| msg_type := error;
        content := Plain (py "Failed to initialize AI system: "
                            ++ api_key_required);
        timestamp := 11 |}]
  /\ text2sql_system ss' = None.
Proof.
  apply (question_without_key no_key 10 11 question (fresh_session db_one_row)).
  - reflexivity.
  - left. reflexivity.
Defined.

(** *** Many questions *)

Lemma questions_of_app h1 h2 :
  questions_of (h1 ++ h2) = questions_of h1 ++ questions_of h2.
Proof.
  induction h1 as [|m h1 IH]; [reflexivity|]. simpl.
  destruct (msg_type m), (content m); rewrite IH; reflexivity.
Qed.

(** Every question gets its message and exactly one reply, whatever
    happens to it: after any list of questions the history has grown
    by two messages per question, and its messages of type 'user' are
    the questions in the order asked. *)
Theorem history_keeps_questions pf qs : forall ss,
  length (chat_history (ask_all pf qs ss))
  = (length (chat_history ss) + 2 * length qs)%nat
  /\ questions_of (chat_history (ask_all pf qs ss))
     = questions_of (chat_history ss) ++ map snd qs.
Proof.
  unfold ask_all. induction qs as [|[[t1 t2] q] qs IH]; intros ss.
  - simpl. rewrite app_nil_r. split; [lia | reflexivity].
  - simpl fold_left. destruct (IH (ask pf ss (t1, t2, q))) as [Hl Hq].
    rewrite Hl, Hq. unfold ask. cbn [fst snd].
    destruct (process_appends pf t1 t2 q ss) as (reply & -> & Hr & _).
    rewrite length_app, questions_of_app. cbn [length map snd].
    split; [lia|]. rewrite <- app_assoc. f_equal. simpl.
    destruct (msg_type reply) eqn:E; [congruence| | |];
      destruct (content reply); reflexivity.
Qed.

(** *** What a run is answered with *)

Lemma process_with_system pf t1 t2 q ss sys run :
  text2sql_system ss = Some sys ->
  query sys q (schema_info ss) (db_connector ss) = Some run ->
  chat_history (process_user_query pf t1 t2 q ss)
  = chat_history ss
    ++ [{| msg_type := user; content := Plain q; timestamp := t1 |};
        reply_to run t2].
Proof.
  intros Hsys Hq. unfold process_user_query.
  cbn [text2sql_system append_message]. rewrite Hsys. cbn.
  rewrite Hq. cbn. now rewrite <- app_assoc.
Qed.

Lemma no_success_all_empty rd :
  successes rd = 0%nat -> forall d, In d (df rd) -> empty d = true.
Proof.
  unfold successes. intros H d Hd.
  destruct (empty d) eqn:E; [reflexivity|].
  assert (Hin : In d (filter (fun x => negb (empty x)) (df rd)))
    by (apply filter_In; split; [exact Hd | now rewrite E]).
  destruct (filter _ (df rd)); [destruct Hin | discriminate].
Qed.

Lemma last_in {A} (l : list A) (a : A) : l <> [] -> In (last l a) l.
Proof.
  intros H. destruct (exists_last H) as (l' & x & ->).
  rewrite last_last. apply in_or_app. right. now left.
Qed.

Lemma all_raise_no_frame self q database_info db :
  (forall i s, exists e, Text2SQLSystem.execute_query db i s = Raised e) ->
  exists run, query self q database_info db = Some run /\ df (trace run) = [].
Proof.
  intros Hraise. destruct (sql_agent self q database_info) as [r0|] eqn:Hgen.
  - destruct (LoopFacts.query_invariant (fun st => df (return_dict st) = [])
                self q database_info db r0 Hgen) as (st & Hq & HP & _).
    + reflexivity.
    + intros st _ H. rewrite LoopFacts.iteration_df, H.
      destruct (Hraise (attempt_index st) (attempt_sql st)) as [e ->].
      reflexivity.
    + now exists (finish st).
  - unfold query. rewrite Hgen. eexists. split; reflexivity.
Qed.

(** A run that succeeded with a statement that is not empty is
    answered by a message of type 'bot_success' that carries the
    statement of the last attempt, the frame the database returned for
    it, which is not empty, the reasons of the earlier attempts, and
    the number of attempts, which is at most [max_retry]. *)
Theorem success_is_answered pf t1 t2 q ss sys :
  text2sql_system ss = Some sys ->
  exists run,
    query sys q (schema_info ss) (db_connector ss) = Some run
    /\ (terminal run = Terminated_Success ->
        last (sql (trace run)) [] <> [] ->
        exists d,
          chat_history (process_user_query pf t1 t2 q ss)
          = chat_history ss
            ++ [{| msg_type := user; content := Plain q; timestamp := t1 |};
                {| msg_type := bot_success;
                   content := ResponseContent (last (sql (trace run)) []) d
                                (error_reason (trace run))
                                (length (sql (trace run)));
                   timestamp := t2 |}]
          /\ empty d = false
          /\ Text2SQLSystem.execute_query (db_connector ss) (length (sql (trace run)) - 1)
               (last (sql (trace run)) []) = Returned d
          /\ (Z.of_nat (length (sql (trace run))) <= Z.max 0 (max_retry sys))%Z).
Proof.
  intros Hsys.
  destruct (LoopFacts.last_result_of_success sys q (schema_info ss)
              (db_connector ss)) as (run & Hq & Hs).
  destruct (LoopMore.run_attempts_bound sys q (schema_info ss) (db_connector ss))
    as (run' & Hq' & Hb).
  rewrite Hq in Hq'. injection Hq' as <-.
  exists run. split; [exact Hq|]. intros Ht Hne.
  destruct (Hs Ht) as (s0 & d & Hg & Hd & He).
  assert (Hs0 : s0 = last (sql (trace run)) []).
  { unfold get_last_successful_result in Hg.
    destruct (negb (is_nil (sql (trace run))) && negb (is_nil (df (trace run))));
      congruence. }
  subst s0. exists d. repeat split; auto.
  rewrite (process_with_system pf t1 t2 q ss sys run Hsys Hq).
  unfold reply_to. rewrite Hg.
  destruct (last (sql (trace run)) []) as [|c s0]; [congruence | reflexivity].
Qed.

Lemma success_is_answered_witness :
  let ss := set_system (stubborn 3) (fresh_session db_one_row) in
  exists run,
    query (stubborn 3) question schema db_one_row = Some run
    /\ exists d,
         chat_history (process_user_query no_key 10 11 question ss)
         = [{| msg_type := user; content := Plain question; timestamp := 10 |};
            {| msg_type := bot_success;
               content := ResponseContent (last (sql (trace run)) []) d
                            (error_reason (trace run))
                            (length (sql (trace run)));
               timestamp := 11 |}]
         /\ empty d = false
         /\ Text2SQLSystem.execute_query db_one_row (length (sql (trace run)) - 1)
              (last (sql (trace run)) []) = Returned d
         /\ (Z.of_nat (length (sql (trace run))) <= 3)%Z.
Proof.
  intros ss.
  destruct (success_is_answered no_key 10 11 question ss (stubborn 3) eq_refl)
    as (run & Hq & H).
  exists run. split; [exact Hq|].
  pose proof Hq as Hc. vm_compute in Hc. injection Hc as Hc. subst run.
  apply H; vm_compute; [reflexivity | discriminate].
Defined.

(** A run that did not succeed but recorded a frame, which is then
    empty, is answered by a message of type 'bot_success' too, with
    the last empty frame, when its last statement is not empty. *)
Theorem empty_result_is_answered_as_success pf t1 t2 q ss sys :
  text2sql_system ss = Some sys ->
  exists run,
    query sys q (schema_info ss) (db_connector ss) = Some run
    /\ (terminal run <> Terminated_Success ->
        df (trace run) <> [] ->
        last (sql (trace run)) [] <> [] ->
        exists d,
          chat_history (process_user_query pf t1 t2 q ss)
          = chat_history ss
            ++ [{| msg_type := user; content := Plain q; timestamp := t1 |};
                {| msg_type := bot_success;
                   content := ResponseContent (last (sql (trace run)) []) d
                                (error_reason (trace run))
                                (length (sql (trace run)));
                   timestamp := t2 |}]
          /\ empty d = true).
Proof.
  intros Hsys.
  destruct (LoopMore.run_success_trace sys q (schema_info ss) (db_connector ss))
    as (run & Hq & _ & Hfail).
  exists run. split; [exact Hq|]. intros Ht Hdf Hsql.
  exists (last (df (trace run)) {| columns := []; rows := [] |}). split.
  - rewrite (process_with_system pf t1 t2 q ss sys run Hsys Hq).
    unfold reply_to, get_last_successful_result.
    destruct (sql (trace run)) as [|s0 l] eqn:Es; [now destruct Hsql|].
    destruct (df (trace run)) as [|d0 l'] eqn:Ed; [congruence|].
    cbn [is_nil negb andb].
    destruct (last (s0 :: l) []) as [|c s1]; [congruence | reflexivity].
  - apply (no_success_all_empty (trace run)); [now apply Hfail|].
    now apply last_in.
Qed.

Lemma empty_result_is_answered_as_success_witness :
  let ss := set_system (stubborn 3) (fresh_session db_no_rows) in
  exists run,
    query (stubborn 3) question schema db_no_rows = Some run
    /\ exists d,
         chat_history (process_user_query no_key 10 11 question ss)
         = [{| msg_type := user; content := Plain question; timestamp := 10 |};
            {| msg_type := bot_success;
               content := ResponseContent (last (sql (trace run)) []) d
                            (error_reason (trace run))
                            (length (sql (trace run)));
               timestamp := 11 |}]
         /\ empty d = true.
Proof.
  intros ss.
  destruct (empty_result_is_answered_as_success no_key 10 11 question ss
              (stubborn 3) eq_refl) as (run & Hq & H).
  exists run. split; [exact Hq|].
  pose proof Hq as Hc. vm_compute in Hc. injection Hc as Hc. subst run.
  apply H; vm_compute; discriminate.
Defined.

(** When the database raises on every statement, the question is
    answered by a message of type 'bot_error': the fixed sentence,
    followed, when a reason was recorded, by the first 200 characters
    of the last reason. *)
Theorem failure_is_answered pf t1 t2 q ss sys :
  text2sql_system ss = Some sys ->
  (forall i s, exists e, Text2SQLSystem.execute_query (db_connector ss) i s = Raised e) ->
  exists run,
    query sys q (schema_info ss) (db_connector ss) = Some run
    /\ chat_history (process_user_query pf t1 t2 q ss)
       = chat_history ss
         ++ [{| msg_type := user; content := Plain q; timestamp := t1 |};
             {| msg_type := bot_error;
                content :=
                  Plain (if is_nil (error_reason (trace run))
                         then no_working_query
                         else no_working_query ++ py " Last error: "
                                ++ firstn 200 (last (error_reason (trace run)) [])
                                ++ py "...");
                timestamp := t2 |}].
Proof.
  intros Hsys Hraise.
  destruct (all_raise_no_frame sys q (schema_info ss) (db_connector ss) Hraise)
    as (run & Hq & Hdf).
  exists run. split; [exact Hq|].
  rewrite (process_with_system pf t1 t2 q ss sys run Hsys Hq).
  unfold reply_to, get_last_successful_result. rewrite Hdf.
  cbn [is_nil negb]. rewrite andb_false_r. reflexivity.
Qed.

Lemma failure_is_answered_witness :
  let ss := set_system (stubborn 3) (fresh_session db_raising) in
  exists run,
    query (stubborn 3) question schema db_raising = Some run
    /\ chat_history (process_user_query no_key 10 11 question ss)
       = [{| msg_type := user; content := Plain question; timestamp := 10 |};
          {| msg_type := bot_error;
             content :=
               Plain (if is_nil (error_reason (trace run))
                      then no_working_query
                      else no_working_query ++ py " Last error: "
                             ++ firstn 200 (last (error_reason (trace run)) [])
                             ++ py "...");
             timestamp := 11 |}].
Proof.
  intros ss.
  apply (failure_is_answered no_key 10 11 question ss (stubborn 3) eq_refl).
  intros i s. eexists. reflexivity.
Defined.

(** *** What [display_results] prints after a run *)

(** After a run that succeeded with a statement that is not empty,
    [display_results] prints the banner, that statement, the number of
    rows of the frame returned for it, which is positive, the frame cut
    to [max_rows] rows, and the line of the remaining rows exactly when
    the frame has more than [max_rows] rows.  After a run that
    recorded no frame it prints that there is no result, and the last
    reason when one was recorded. *)
Theorem display_after_run to_string self q database_info db max_rows :
  exists run,
    query self q database_info db = Some run
    /\ (terminal run = Terminated_Success ->
        last (sql (trace run)) [] <> [] ->
        exists d,
          Text2SQLSystem.execute_query db (length (sql (trace run)) - 1)
            (last (sql (trace run)) []) = Returned d
          /\ (0 < len d)%Z
          /\ display_results to_string (trace run) max_rows
             = [ newline ++ repeat 61%N 50;
                 [127919%N] ++ py " FINAL RESULTS";
                 repeat 61%N 50;
                 py "SQL Query:" ++ newline ++ last (sql (trace run)) [];
                 newline ++ py "Results (" ++ str_of_int (len d) ++ py " rows):";
                 to_string (head max_rows d) ]
               ++ (if (max_rows <? len d)%Z
                   then [py "... and " ++ str_of_int (len d - max_rows)
                           ++ py " more rows"]
                   else []))
    /\ (df (trace run) = [] ->
        display_results to_string (trace run) max_rows
        = [ newline ++ [10060%N] ++ py " No successful results to display" ]
          ++ (if is_nil (error_reason (trace run)) then []
              else [py "Last error reasoning: "
                      ++ last (error_reason (trace run)) []])).
Proof.
  destruct (LoopFacts.last_result_of_success self q database_info db)
    as (run & Hq & Hs).
  exists run. split; [exact Hq|]. split.
  - intros Ht Hne. destruct (Hs Ht) as (s0 & d & Hg & Hd & He).
    assert (Hs0 : s0 = last (sql (trace run)) []).
    { unfold get_last_successful_result in Hg.
      destruct (negb (is_nil (sql (trace run))) && negb (is_nil (df (trace run))));
        congruence. }
    subst s0. exists d. split; [exact He|]. split.
    + unfold len. unfold empty in Hd. apply orb_false_iff in Hd as [_ Hr].
      destruct (rows d); [discriminate | simpl; lia].
    + unfold display_results. rewrite Hg.
      destruct (last (sql (trace run)) []) as [|c s0]; [congruence | reflexivity].
  - intros Hdf. unfold display_results, get_last_successful_result.
    rewrite Hdf. cbn [is_nil negb]. rewrite andb_false_r. reflexivity.
Qed.

Lemma display_after_run_witness :
  exists run,
    query (stubborn 3) question schema db_raising = Some run
    /\ display_results (fun _ => []) (trace run) 10
       = [ newline ++ [10060%N] ++ py " No successful results to display";
           py "Last error reasoning: "
             ++ py "Table usr does not exist. Use the table users." ].
Proof.
  destruct (display_after_run (fun _ => []) (stubborn 3) question schema
              db_raising 10) as (run & Hq & _ & H).
  exists run. split; [exact Hq|].
  pose proof Hq as Hc. vm_compute in Hc. injection Hc as Hc. subst run.
  apply H. reflexivity.
Defined.

End FrontendFacts.
